(** * k8stream: the event handler and its local cache

    A shallow embedding of [handler.go] and of the cache that backs it.
    The Go code is stateful (an embedded key/value store, an output
    channel, the process log); here every function receives the state it
    touches and returns the new one, next to the values the Go function
    returns.  A Go [error] is an [option error], [None] being [nil]. *)

From stdpp Require Import gmap strings list fin_maps sorting.
From Stdlib Require Import ZArith Ascii.

Local Open Scope Z_scope.

(** ** Errors *)

(** The three pre-constructed values are the ones [buntdb] hands out;
    [errorString] stands for every other error value (encoding/json, the
    Kubernetes client). *)
Inductive error : Type :=
  | ErrNotFound
  | ErrIndexExists
  | ErrDatabaseClosed
  | errorString (msg : string).

#[global] Instance error_eq_dec : EqDecision error.
Proof. solve_decision. Defined.

(** [err.Error()] *)
Definition Error (e : error) : string :=
  match e with
  | ErrNotFound => "not found"
  | ErrIndexExists => "index exists"
  | ErrDatabaseClosed => "database closed"
  | errorString msg => msg
  end.

(** ** Machine integers and durations *)

(** [time.Duration] is an [int64] counting nanoseconds; products wrap. *)
Definition wrap64 (z : Z) : Z := (z + 2 ^ 63) mod 2 ^ 64 - 2 ^ 63.

Definition Second : Z := 1000000000.

(** [time.Duration(expires) * time.Second] *)
Definition Duration_seconds (expires : Z) : Z := wrap64 (wrap64 expires * Second).

(** ** The embedded store

    [buntdb] is a library outside the repository.  The model keeps what the
    cache relies on: the keys with their values and expiry instants, the
    registered indexes (name and pattern), managed transactions that roll
    back when the callback returns an error, and the pre-constructed error
    values. *)
Module buntdb.

Record SetOptions : Type := { Expires : bool; TTL : Z }.

Record item : Type := { val : string; exat : option Z }.

Record DB : Type := {
  closed : bool;
  (** the instant the store reads from the wall clock, in nanoseconds *)
  clock : Z;
  keys : gmap string item;
  idxs : gmap string string
}.

(** A transaction works on a private copy of the store. *)
Definition Tx : Type := DB.

Definition expired (tx : Tx) (it : item) : bool :=
  match exat it with
  | Some t => bool_decide (t < clock tx)
  | None => false
  end.

(** [tx.Get(key)] *)
Definition tx_Get (tx : Tx) (key : string) : string * option error :=
  match keys tx !! key with
  | Some it => if expired tx it then ("", Some ErrNotFound) else (val it, None)
  | None => ("", Some ErrNotFound)
  end.

(** [tx.Set(key, value, opts)].  Inside a writable transaction the call
    cannot fail; the previous value it also returns is not modelled. *)
Definition tx_Set (tx : Tx) (key value : string) (opts : SetOptions) : Tx :=
  let it := {| val := value;
               exat := if Expires opts then Some (clock tx + TTL opts) else None |} in
  {| closed := closed tx; clock := clock tx;
     keys := <[key := it]> (keys tx); idxs := idxs tx |}.

(** [tx.Indexes()]: the names of the registered indexes. *)
Definition tx_Indexes (tx : Tx) : list string * option error :=
  ((map_to_list (idxs tx)).*1, None).

(** [tx.CreateIndex(name, pattern, less)].  The empty name is reserved
    for the store's own key tree. *)
Definition tx_CreateIndex (tx : Tx) (name pattern : string) : Tx * option error :=
  if decide (name = "") then (tx, Some ErrIndexExists)
  else match idxs tx !! name with
       | Some _ => (tx, Some ErrIndexExists)
       | None =>
           ({| closed := closed tx; clock := clock tx;
               keys := keys tx; idxs := <[name := pattern]> (idxs tx) |}, None)
       end.

(** [db.View(fn)]: a read-only managed transaction.  [S] is what the
    closure captures and assigns to. *)
Definition View {S : Type} (db : DB) (fn : Tx → S → S * option error) (s : S)
  : S * option error :=
  if closed db then (s, Some ErrDatabaseClosed) else fn db s.

(** [db.Update(fn)]: a read/write managed transaction, committed when
    [fn] returns [nil] and rolled back otherwise. *)
Definition Update (db : DB) (fn : Tx → Tx * option error) : DB * option error :=
  if closed db then (db, Some ErrDatabaseClosed)
  else match fn db with
       | (tx', None) => (tx', None)
       | (_, Some e) => (db, Some e)
       end.

(** [buntdb.Open(":memory:")] *)
Definition Open (now : Z) : DB :=
  {| closed := false; clock := now; keys := ∅; idxs := ∅ |}.

End buntdb.

(** ** The cache (second file of [handler.go]) *)

Record Cache : Type := { Cache_db : buntdb.DB }.

Definition makeKey (table uid : string) : string := table +:+ "-" +:+ uid.

(** [for _, ix := range indices { if table == ix { indexExists = true; break } }] *)
Fixpoint indexExists (table : string) (indices : list string) : bool :=
  match indices with
  | [] => false
  | ix :: rest => if decide (table = ix) then true else indexExists table rest
  end.

(** [opts := &buntdb.SetOptions{}; if expires > 0 { ... }] *)
Definition ExpireSet_opts (expires : Z) : buntdb.SetOptions :=
  if bool_decide (0 < expires)
  then {| buntdb.Expires := true; buntdb.TTL := Duration_seconds expires |}
  else {| buntdb.Expires := false; buntdb.TTL := 0 |}.

Section CacheOps.

(** The values handed to the cache, with [json.Marshal] on them. *)
Context {V : Type} (json_Marshal : V → string * option error).
(** The targets a lookup decodes into, with [json.Unmarshal]. *)
Context {T : Type} (json_Unmarshal : string → T → T * option error).
(** [Get] returns [missing, c.db.View(...)]: Go does not fix whether the
    variable is read before or after the call that assigns it.  The gc
    compiler performs the call first. *)
Context (call_first : bool).

Definition Cache_Get (c : Cache) (table uid : string) (obj : T)
  : bool * option error * T :=
  let key := makeKey table uid in
  let missing := false in
  let '((missing', obj'), err) :=
    buntdb.View (Cache_db c) (fun tx '(missing, obj) =>
      let '(val, err) := buntdb.tx_Get tx key in
      match err with
      | Some e =>
          ((if decide (e = ErrNotFound) then true else missing, obj), Some e)
      | None =>
          let '(obj', err') := json_Unmarshal val obj in ((missing, obj'), err')
      end) (missing, obj) in
  ((if call_first then missing' else missing), err, obj').

Definition Cache_ExpireSet (c : Cache) (table uid : string) (obj : V) (expires : Z)
  : Cache * option error :=
  let '(b, err) := json_Marshal obj in
  match err with
  | Some e => (c, Some e)
  | None =>
      let opts := ExpireSet_opts expires in
      let '(db', err) :=
        buntdb.Update (Cache_db c) (fun tx =>
          let '(indices, err) := buntdb.tx_Indexes tx in
          match err with
          | Some e => (tx, Some e)
          | None =>
              let '(tx, err) :=
                if indexExists table indices then (tx, None)
                else buntdb.tx_CreateIndex tx table (makeKey table "*") in
              match err with
              | Some e => (tx, Some e)
              | None => (buntdb.tx_Set tx (makeKey table uid) b opts, None)
              end
          end) in
      ({| Cache_db := db' |}, err)
  end.

(** Set is just a wrapper around ExpireSet with a no-expiration intent. *)
Definition Cache_Set (c : Cache) (table uid : string) (obj : V) : Cache * option error :=
  Cache_ExpireSet c table uid obj 0.

End CacheOps.

(** [newCache] *)
Definition newCache (now : Z) : Cache * option error :=
  ({| Cache_db := buntdb.Open now |}, None).

(** ** Kubernetes objects

    Only the fields the handler reads are kept. *)
Module metav1.
Record ObjectMeta : Type := {
  Name : string;
  Namespace : string;
  UID : string;
  ResourceVersion : string;
  (** seconds since the epoch, [CreationTimestamp.Time.Unix()] *)
  CreationTimestamp : Z;
  Labels : gmap string string;
  Annotations : gmap string string
}.
End metav1.

Module v1.
Record ObjectReference : Type := {
  Kind : string;
  Namespace : string;
  Name : string;
  UID : string;
  APIVersion : string
}.

Record EventSource : Type := { Component : string; Host : string }.

Record Event : Type := {
  Event_ObjectMeta : metav1.ObjectMeta;
  InvolvedObject : ObjectReference;
  Reason : string;
  Message : string;
  Source : EventSource
}.

Record PodStatus : Type := {
  StartTime : option Z;
  PodIP : string;
  HostIP : string
}.

Record Pod : Type := {
  Pod_Kind : string;
  Pod_APIVersion : string;
  Pod_ObjectMeta : metav1.ObjectMeta;
  Status : PodStatus
}.

Record Service : Type := {
  Service_ObjectMeta : metav1.ObjectMeta;
  Selector : gmap string string
}.
End v1.

Module unstructured.
Record Unstructured : Type := {
  Kind : string;
  Object_ObjectMeta : metav1.ObjectMeta
}.
End unstructured.

(** The accessor interface of [metav1.Object]. *)
Class Object (A : Type) : Type := GetObjectMeta : A → metav1.ObjectMeta.

#[global] Instance Event_Object : Object v1.Event := v1.Event_ObjectMeta.
#[global] Instance Pod_Object : Object v1.Pod := v1.Pod_ObjectMeta.
#[global] Instance Service_Object : Object v1.Service := v1.Service_ObjectMeta.
#[global] Instance Unstructured_Object : Object unstructured.Unstructured :=
  unstructured.Object_ObjectMeta.

Section Accessors.
Context {A : Type} `{!Object A}.
Definition GetName (x : A) : string := metav1.Name (GetObjectMeta x).
Definition GetNamespace (x : A) : string := metav1.Namespace (GetObjectMeta x).
Definition GetUID (x : A) : string := metav1.UID (GetObjectMeta x).
Definition GetResourceVersion (x : A) : string := metav1.ResourceVersion (GetObjectMeta x).
Definition GetLabels (x : A) : gmap string string := metav1.Labels (GetObjectMeta x).
Definition GetAnnotations (x : A) : gmap string string :=
  metav1.Annotations (GetObjectMeta x).
End Accessors.

(** What the informer hands to the callbacks, by dynamic type. *)
Inductive Obj : Type :=
  | EventObj (e : v1.Event)
  | ServiceObj (s : v1.Service)
  | OtherObj.

(** ** The enriched event *)

(** The values of the [map[string]interface{}] in [L9Event.Pod].  A nil
    slice and an empty one are both [[]]; a nil map and an empty one are
    both [∅]. *)
Inductive value : Type :=
  | VString (s : string)
  | VTime (t : option Z)
  | VStrings (l : list string).

Record L9Event : Type := {
  ID : string;
  Timestamp : Z;
  Component : string;
  Host : string;
  Message : string;
  Namespace : string;
  Reason : string;
  ReferenceUID : string;
  ReferenceNamespace : string;
  ReferenceName : string;
  ReferenceKind : string;
  ReferenceVersion : string;
  ObjectUid : string;
  Labels : gmap string string;
  Annotations : gmap string string;
  Address : list string;
  Pod : gmap string value
}.

(** [var existingService L9Event] *)
Definition L9Event_zero : L9Event :=
  {| ID := ""; Timestamp := 0; Component := ""; Host := ""; Message := "";
     Namespace := ""; Reason := ""; ReferenceUID := ""; ReferenceNamespace := "";
     ReferenceName := ""; ReferenceKind := ""; ReferenceVersion := "";
     ObjectUid := ""; Labels := ∅; Annotations := ∅; Address := []; Pod := ∅ |}.

(** The values that go through [interface{}] into the cache or the
    encoder: what the handler stores and serialises, and the enriched events
    that the events table holds. *)
Inductive any : Type :=
  | AService (s : v1.Service)
  | APods (pods : list v1.Pod)
  | ABool (b : bool)
  | AMap (m : gmap string value)
  | AEvent (ev : L9Event).

(** The encoders the handler calls: [encoding/json] and the API machinery's
    [runtime] codecs.  Decoding yields the decoded object or an error. *)
Class Codec : Type := {
  json_Marshal : any → string * option error;
  json_Unmarshal_L9Event : string → L9Event → L9Event * option error;
  json_Unmarshal_Service : string → v1.Service * option error;
  runtime_Encode : unstructured.Unstructured → string * option error;
  runtime_DecodeInto : string → v1.Pod → v1.Pod * option error
}.

(** ** The store as the handler sees it *)

(** Modelled from the spec: the result of a point lookup,
    [get(table, id) -> Record | NotFound], which the handler asks
    [Exists()] and [Unmarshal(&x)].  The type is not in the sources. *)
Record Result : Type := { payload : option string }.

Definition Exists (r : Result) : bool :=
  match payload r with Some _ => true | None => false end.

Definition Unmarshal {T : Type} (decode : string → T) (r : Result) : T :=
  decode (default "" (payload r)).

(** Modelled from the spec: the four-operation store contract the handler is
    written against ([h.db.Get] with two arguments, [db.List]); the
    [Cachier] declaration next to [Cache] has a [Get] of another shape and
    no [List].  Lookups do not change the store. *)
Class Cachier (DB : Type) : Type := {
  db_Get : DB → string → string → Result * option error;
  db_Set : DB → string → string → any → DB * option error;
  db_List : DB → string → list string * option error
}.

(** The methods of [kubernetesClient] the handler calls, which are not in
    the sources, and the wall clock.  [K] is the world outside the handler
    (the cluster as the client sees it); every call may change it and the
    store it is handed. *)
Record kubernetesClient (K DB : Type) : Type := {
  getObject : K → DB → v1.ObjectReference
              → K * DB * (option unstructured.Unstructured * option error);
  getNodeAddress : K → DB → string → K * DB * (list string * option error);
  getPods : K → DB → v1.Service → K * DB * (list v1.Pod * option error);
  (** [time.Now().Unix()] *)
  time_Now : K → Z
}.
Arguments getObject {K DB}.
Arguments getNodeAddress {K DB}.
Arguments getPods {K DB}.
Arguments time_Now {K DB}.

(** ** Strings *)

Definition lower (a : ascii) : ascii :=
  let n := N_of_ascii a in
  if bool_decide (65 ≤ n ≤ 90)%N then ascii_of_N (n + 32) else a.

(** [strings.ToLower], on the ASCII letters.  The handler compares the
    result with ["pod"] only, which no other letter lowers to. *)
Fixpoint ToLower (s : string) : string :=
  match s with
  | EmptyString => EmptyString
  | String a rest => String (lower a) (ToLower rest)
  end.

Definition eventCacheTable : string := "events".

(** ** The handler *)

(** [Handler] with what its fields point to: the cluster behind [client],
    everything sent on [ch] so far, the store behind [db]; [logged] is the
    output of the process-wide [log] package. *)
Record Handler (K DB : Type) : Type := {
  client : K;
  ch : list L9Event;
  db : DB;
  logged : list string
}.
Arguments client {K DB}.
Arguments ch {K DB}.
Arguments db {K DB}.
Arguments logged {K DB}.

Section HandlerOps.

Context {K DB : Type} `{!Cachier DB} `{!Codec}.
Context (kc : kubernetesClient K DB).

(** Handler code runs in a state monad over [Handler]. *)
Definition M (A : Type) : Type := Handler K DB → A * Handler K DB.

#[local] Instance M_ret : MRet M := λ A a h, (a, h).
#[local] Instance M_bind : MBind M :=
  λ A B f m h, let '(a, h') := m h in f a h'.

(** [log.Println(line)] *)
Definition log_Println (line : string) : M unit := λ h,
  (tt, {| client := client h; ch := ch h; db := db h;
          logged := logged h ++ [line] |}).

(** [if err != nil { log.Println(err) }] *)
Definition log_error (err : option error) : M unit :=
  match err with
  | Some e => log_Println (Error e)
  | None => mret tt
  end.

(** [h.ch <- ev] *)
Definition send (ev : L9Event) : M unit := λ h,
  (tt, {| client := client h; ch := ch h ++ [ev]; db := db h;
          logged := logged h |}).

Definition Get (table uid : string) : M (Result * option error) := λ h,
  (db_Get (db h) table uid, h).

Definition List (table : string) : M (list string * option error) := λ h,
  (db_List (db h) table, h).

Definition Set_ (table uid : string) (obj : any) : M (option error) := λ h,
  let '(d, err) := db_Set (db h) table uid obj in
  (err, {| client := client h; ch := ch h; db := d; logged := logged h |}).

(** A call of a client method with the handler's store. *)
Definition call {A B : Type} (f : K → DB → A → K * DB * B) (a : A) : M B := λ h,
  let '(k, d, b) := f (client h) (db h) a in
  (b, {| client := k; ch := ch h; db := d; logged := logged h |}).

Definition Now : M Z := λ h, (time_Now kc (client h), h).

Definition miniPodInfo (p : v1.Pod) : gmap string value :=
  let ne : gmap string value := ∅ in
  let ne := <["uid" := VString (GetUID p)]> ne in
  let ne := <["name" := VString (GetName p)]> ne in
  let ne := <["namespace" := VString (GetNamespace p)]> ne in
  let ne := <["start_time" := VTime (v1.StartTime (v1.Status p))]> ne in
  let ne := <["ip" := VString (v1.PodIP (v1.Status p))]> ne in
  let ne := <["host_ip" := VString (v1.HostIP (v1.Status p))]> ne in
  ne.

Definition unstructuredToPod (obj : unstructured.Unstructured)
  : option v1.Pod * option error :=
  let '(json, err) := runtime_Encode obj in
  match err with
  | Some e => (None, Some e)
  | None =>
      let pod := {| v1.Pod_Kind := ""; v1.Pod_APIVersion := "";
                    v1.Pod_ObjectMeta :=
                      {| metav1.Name := ""; metav1.Namespace := "";
                         metav1.UID := ""; metav1.ResourceVersion := "";
                         metav1.CreationTimestamp := 0;
                         metav1.Labels := ∅; metav1.Annotations := ∅ |};
                    v1.Status := {| v1.StartTime := None; v1.PodIP := "";
                                    v1.HostIP := "" |} |} in
      let '(pod, err) := runtime_DecodeInto json pod in
      let pod := {| v1.Pod_Kind := ""; v1.Pod_APIVersion := "";
                    v1.Pod_ObjectMeta := v1.Pod_ObjectMeta pod;
                    v1.Status := v1.Status pod |} in
      (Some pod, err)
  end.

(** The loop of [getPodServices]: the [err] of the lookup inside the
    loop is a variable of its own. *)
Fixpoint getPodServices_loop (serviceIds services : list string) : M (list string) :=
  match serviceIds with
  | [] => mret services
  | sId :: rest =>
      '(res, err) ← Get "service" sId;
      match err with
      | None =>
          if Exists res then
            let '(v, err) := Unmarshal json_Unmarshal_Service res in
            match err with
            | Some e => _ ← log_Println (Error e); getPodServices_loop rest services
            | None => getPodServices_loop rest (services ++ [GetName v])
            end
          else getPodServices_loop rest services
      | Some _ => getPodServices_loop rest services
      end
  end.

Definition getPodServices (uid : string) : M (list string * option error) :=
  '(serviceIds, err) ← List (makeKey "pod-service" uid);
  match err with
  | Some e => mret ([], Some e)
  | None =>
      services ← getPodServices_loop serviceIds [];
      mret (services, err)
  end.

Definition with_Pod (ne : L9Event) (pod : gmap string value) : L9Event :=
  {| ID := ID ne; Timestamp := Timestamp ne; Component := Component ne;
     Host := Host ne; Message := Message ne; Namespace := Namespace ne;
     Reason := Reason ne; ReferenceUID := ReferenceUID ne;
     ReferenceNamespace := ReferenceNamespace ne;
     ReferenceName := ReferenceName ne; ReferenceKind := ReferenceKind ne;
     ReferenceVersion := ReferenceVersion ne; ObjectUid := ObjectUid ne;
     Labels := Labels ne; Annotations := Annotations ne;
     Address := Address ne; Pod := pod |}.

(** [ne] is a pointer in Go; the updated event is returned. *)
Definition addPodDetails (ne : L9Event) (u : unstructured.Unstructured)
  : M (L9Event * option error) :=
  if decide (ToLower (unstructured.Kind u) ≠ "pod") then mret (ne, None)
  else
    let '(p, err) := unstructuredToPod u in
    match err, p with
    | Some e, _ => mret (ne, Some e)
    | None, None => mret (ne, None) (* not reached: [p] is nil only with an error *)
    | None, Some p =>
        let ne := with_Pod ne (miniPodInfo p) in
        '(services, err) ← getPodServices (GetUID p);
        mret (with_Pod ne (<["impacted_services" := VStrings services]> (Pod ne)), err)
    end.

Definition makeL9Event (e : v1.Event) (u : option unstructured.Unstructured)
    (address : list string) : M L9Event :=
  let ne :=
    {| ID := GetUID e;
       Timestamp := metav1.CreationTimestamp (GetObjectMeta e);
       Component := v1.Component (v1.Source e);
       Host := v1.Host (v1.Source e);
       Message := v1.Message e;
       Namespace := GetNamespace e;
       Reason := v1.Reason e;
       ReferenceUID := v1.UID (v1.InvolvedObject e);
       ReferenceNamespace := "";
       ReferenceName := v1.Name (v1.InvolvedObject e);
       ReferenceKind := "";
       ReferenceVersion := v1.APIVersion (v1.InvolvedObject e);
       ObjectUid := "";
       Labels := ∅;
       Annotations := ∅;
       Address := address;
       Pod := ∅ |} in
  match u with
  | Some u =>
      '(ne, err) ← addPodDetails ne u;
      _ ← log_error err;
      mret {| ID := ID ne; Timestamp := Timestamp ne; Component := Component ne;
              Host := Host ne; Message := Message ne; Namespace := Namespace ne;
              Reason := Reason ne; ReferenceUID := ReferenceUID ne;
              ReferenceNamespace := GetNamespace u;
              ReferenceName := ReferenceName ne;
              ReferenceKind := unstructured.Kind u;
              ReferenceVersion := ReferenceVersion ne;
              ObjectUid := GetUID u;
              Labels := GetLabels u;
              Annotations := GetAnnotations u;
              Address := Address ne; Pod := Pod ne |}
  | None => mret ne
  end.

(** The loop of [makeL9ServiceEvent]. *)
Fixpoint podMap_loop (pods : list v1.Pod) (podMap : gmap string value)
  : gmap string value :=
  match pods with
  | [] => podMap
  | p :: rest =>
      let '(b, err) := json_Marshal (AMap (miniPodInfo p)) in
      match err with
      | Some e => podMap_loop rest (<[GetName p := VString (Error e)]> podMap)
      | None => podMap_loop rest (<[GetName p := VString b]> podMap)
      end
  end.

Definition makeL9ServiceEvent (s : v1.Service) (pods : list v1.Pod)
    (eventType : string) : M L9Event :=
  let podMap := podMap_loop pods ∅ in
  now ← Now;
  mret {| ID := GetUID s +:+ "-" +:+ GetResourceVersion s;
          Timestamp := now;
          Component := GetName s;
          Host := "";
          Message := eventType;
          Namespace := GetNamespace s;
          Reason := eventType;
          ReferenceUID := "";
          ReferenceNamespace := "";
          ReferenceName := "";
          ReferenceKind := "";
          ReferenceVersion := GetResourceVersion s;
          ObjectUid := GetUID s;
          Labels := GetLabels s;
          Annotations := GetAnnotations s;
          Address := [];
          Pod := podMap |}.

(** The loop of [onService] that writes the reverse index. *)
Fixpoint onService_loop (suid : string) (pods : list v1.Pod) : M (option error) :=
  match pods with
  | [] => mret None
  | p :: rest =>
      err ← Set_ (makeKey "pod-service" (GetUID p)) suid (ABool true);
      match err with
      | Some e => mret (Some e)
      | None => onService_loop suid rest
      end
  end.

(** What [onService] does once the service is known to be new. *)
Definition onService_process (s : v1.Service) (eventType suid : string)
  : M (option error) :=
  err ← Set_ "service" suid (AService s);
  match err with
  | Some e => mret (Some e)
  | None =>
      '(pods, err) ← call (getPods kc) s;
      match err with
      | Some e => mret (Some e)
      | None =>
          err ← Set_ "service-pods" suid (APods pods);
          match err with
          | Some e => mret (Some e)
          | None =>
              err ← onService_loop suid pods;
              match err with
              | Some e => mret (Some e)
              | None =>
                  ev ← makeL9ServiceEvent s pods eventType;
                  _ ← send ev;
                  mret None
              end
          end
      end
  end.

Definition onService (s : v1.Service) (eventType : string) : M (option error) :=
  if bool_decide (GetNamespace s ∈ ["kube-system"; "kubernetes-dashboard"])
  then mret None
  else if decide (GetName s = "kubernetes") then mret None
  else
    let suid := GetUID s in
    '(r, err) ← Get eventCacheTable suid;
    match err with
    | Some e => mret (Some e)
    | None =>
        if Exists r then
          let '(existingService, err) :=
            Unmarshal (λ b, json_Unmarshal_L9Event b L9Event_zero) r in
          match err with
          | Some e => mret (Some e)
          | None =>
              if bool_decide
                   (GetResourceVersion s ≤ ReferenceVersion existingService)%string
              then
                _ ← log_Println ("Service " +:+ suid +:+ " already processed");
                mret None
              else onService_process s eventType suid
          end
        else onService_process s eventType suid
    end.

Definition onEvent (e : v1.Event) : M (option error) :=
  if bool_decide
       (GetNamespace e ∈ ["kube-system"; "kubernetes"; "kubernetes-dashboard"])
  then mret None
  else
    '(r, err) ← Get eventCacheTable (GetUID e);
    match err with
    | Some e => mret (Some e)
    | None =>
        if Exists r then mret None
        else
          '(obj, err) ← call (getObject kc) (v1.InvolvedObject e);
          _ ← log_error err;
          '(addr, err) ← call (getNodeAddress kc) (v1.Host (v1.Source e));
          _ ← log_error err;
          ev ← makeL9Event e obj addr;
          _ ← send ev;
          mret None
    end.

Definition OnAdd (obj : Obj) : M unit :=
  err ← match obj with
        | EventObj event => onEvent event
        | ServiceObj s => onService s "addedService"
        | OtherObj => mret None
        end;
  log_error err.

Definition OnUpdate (oldObj newObj : Obj) : M unit :=
  err ← match newObj with
        | EventObj event => onEvent event
        | ServiceObj s => onService s "updatedService"
        | OtherObj => mret None
        end;
  log_error err.

Definition OnDelete (obj : Obj) : M unit :=
  err ← match obj with
        | EventObj event => onEvent event
        | ServiceObj s => onService s "deletedService"
        | OtherObj => mret None
        end;
  log_error err.

(** The informer calls the three callbacks one at a time, in delivery
    order. *)
Inductive Notification : Type :=
  | Added (obj : Obj)
  | Updated (oldObj newObj : Obj)
  | Deleted (obj : Obj).

Definition deliver (n : Notification) (h : Handler K DB) : Handler K DB :=
  match n with
  | Added obj => (OnAdd obj h).2
  | Updated oldObj newObj => (OnUpdate oldObj newObj h).2
  | Deleted obj => (OnDelete obj h).2
  end.

Definition run (ns : list Notification) (h : Handler K DB) : Handler K DB :=
  foldl (λ h n, deliver n h) h ns.

End HandlerOps.

Arguments M : clear implicits.

(** ** The cache as the handler's store *)

(** [strip_prefix p s] is [Some rest] when [s = p ++ rest]. *)
Fixpoint strip_prefix (p s : string) : option string :=
  match p with
  | EmptyString => Some s
  | String a p' =>
      match s with
      | EmptyString => None
      | String b s' => if decide (a = b) then strip_prefix p' s' else None
      end
  end.

(** Modelled from the spec: the point lookup of the handler's revision of
    the cache, [get(table, id) -> Record | NotFound], which is not in the
    sources.  A missing key is a result without a record, not an error. *)
Definition Cache_Lookup (c : Cache) (table uid : string) : Result * option error :=
  let '(found, err) :=
    buntdb.View (Cache_db c) (λ tx (_ : option string),
      let '(val, err) := buntdb.tx_Get tx (makeKey table uid) in
      match err with
      | Some e => if decide (e = ErrNotFound) then (None, None) else (None, Some e)
      | None => (Some val, None)
      end) None in
  ({| payload := found |}, err).

(** Modelled from the spec: [listByPrefix], the ids of all live entries of
    [table], which is not in the sources.  The order is the store's. *)
Definition Cache_List (c : Cache) (table : string) : list string * option error :=
  buntdb.View (Cache_db c) (λ tx (_ : list string),
    (omap (λ '(key, it),
             if buntdb.expired tx it then None
             else strip_prefix (table +:+ "-") key)
          (map_to_list (buntdb.keys tx)), None)) [].

#[global] Instance Cache_Cachier `{!Codec} : Cachier Cache := {|
  db_Get := Cache_Lookup;
  db_Set := Cache_Set json_Marshal;
  db_List := Cache_List
|}.

(** ** Vocabulary of the statements *)

(** The indexes after a committed write to [table]. *)
Definition registered (table : string) (ix : gmap string string) : gmap string string :=
  match ix !! table with
  | Some _ => ix
  | None => <[table := makeKey table "*"]> ix
  end.

(** The lines [log.Println(err)] writes for an error that may be nil. *)
Definition lines (err : option error) : list string :=
  match err with
  | Some e => [Error e]
  | None => []
  end.

Section Vocabulary.

Context {K DB : Type} `{!Cachier DB} `{!Codec}.

(** [h'] differs from [h] by new log lines only. *)
Definition only_logs (h h' : Handler K DB) : Prop :=
  client h' = client h ∧ ch h' = ch h ∧ db h' = db h ∧
  ∃ l, logged h' = logged h ++ l.

(** [h] with more lines in the log. *)
Definition with_log (h : Handler K DB) (l : list string) : Handler K DB :=
  {| client := client h; ch := ch h; db := db h; logged := logged h ++ l |}.

(** The name a service id of the reverse index resolves to: the name in
    the record stored for it, when the lookup succeeds, finds a record and
    the record decodes. *)
Definition resolved_name (d : DB) (sId : string) : option string :=
  match db_Get d "service" sId with
  | (res, None) =>
      if Exists res then
        match Unmarshal json_Unmarshal_Service res with
        | (v, None) => Some (GetName v)
        | (_, Some _) => None
        end
      else None
  | (_, Some _) => None
  end.

(** An event, a service, outside the namespaces the handler leaves alone;
    the service is not the cluster's own either. *)
Definition watched_event (e : v1.Event) : Prop :=
  GetNamespace e ∉ ["kube-system"; "kubernetes"; "kubernetes-dashboard"].

Definition watched_service (s : v1.Service) : Prop :=
  (GetNamespace s ∉ ["kube-system"; "kubernetes-dashboard"]) ∧
  GetName s ≠ "kubernetes".

(** The event [makeL9Event] starts from, which is the one it returns when
    the involved object is not resolved. *)
Definition base_event (e : v1.Event) (address : list string) : L9Event :=
  {| ID := GetUID e;
     Timestamp := metav1.CreationTimestamp (GetObjectMeta e);
     Component := v1.Component (v1.Source e);
     Host := v1.Host (v1.Source e);
     Message := v1.Message e;
     Namespace := GetNamespace e;
     Reason := v1.Reason e;
     ReferenceUID := v1.UID (v1.InvolvedObject e);
     ReferenceNamespace := "";
     ReferenceName := v1.Name (v1.InvolvedObject e);
     ReferenceKind := "";
     ReferenceVersion := v1.APIVersion (v1.InvolvedObject e);
     ObjectUid := "";
     Labels := ∅;
     Annotations := ∅;
     Address := address;
     Pod := ∅ |}.

(** A notification that carries the event with identity [uid]. *)
Definition about_event (uid : string) (n : Notification) : Prop :=
  match n with
  | Added (EventObj e) | Updated _ (EventObj e) | Deleted (EventObj e) =>
      GetUID e = uid
  | _ => False
  end.

(** The record [r] found for the service holds a reference version that
    is not older than the incoming resource version; versions are compared
    as Go compares strings, byte by byte. *)
Definition already_processed (s : v1.Service) (r : Result) : Prop :=
  Exists r = true ∧
  (GetResourceVersion s
     ≤ ReferenceVersion (Unmarshal (λ b, json_Unmarshal_L9Event b L9Event_zero) r).1)%string.

#[global] Instance already_processed_dec s r : Decision (already_processed s r).
Proof. unfold already_processed. apply _. Defined.

(** The line [onService] logs when it skips a service. *)
Definition skip_line (s : v1.Service) : string :=
  "Service " +:+ GetUID s +:+ " already processed".

(** The store after the reverse-index writes of [onService], with the
    error that stopped them, if any. *)
Fixpoint index_writes (suid : string) (pods : list v1.Pod) (d : DB) : DB * option error :=
  match pods with
  | [] => (d, None)
  | p :: rest =>
      match db_Set d (makeKey "pod-service" (GetUID p)) suid (ABool true) with
      | (d', Some e) => (d', Some e)
      | (d', None) => index_writes suid rest d'
      end
  end.

End Vocabulary.

Section StoreVocabulary.

(** [key] holds the payload [b] in an open store and does not expire. *)
Definition stored (c : Cache) (key b : string) : Prop :=
  buntdb.closed (Cache_db c) = false ∧
  buntdb.keys (Cache_db c) !! key = Some {| buntdb.val := b; buntdb.exat := None |}.

(** [c'] is open or closed as [c] is, reads the same clock and has the
    same entries under the keys in [P]. *)
Definition agree_on (P : string → Prop) (c c' : Cache) : Prop :=
  buntdb.closed (Cache_db c') = buntdb.closed (Cache_db c) ∧
  buntdb.clock (Cache_db c') = buntdb.clock (Cache_db c) ∧
  ∀ key, P key → buntdb.keys (Cache_db c') !! key = buntdb.keys (Cache_db c) !! key.

(** No call of the client touches the entries under the keys in [P]. *)
Definition client_keeps {K : Type} (P : string → Prop)
    (kc : kubernetesClient K Cache) : Prop :=
  ∀ k c,
    (∀ r, agree_on P c (getObject kc k c r).1.2) ∧
    (∀ host, agree_on P c (getNodeAddress kc k c host).1.2) ∧
    (∀ s, agree_on P c (getPods kc k c s).1.2).

(** What is stored under the keys in [P] in [c] is stored there in [c']. *)
Definition keeps_stored (P : string → Prop) (c c' : Cache) : Prop :=
  ∀ key b, P key → stored c key b → stored c' key b.

(** The call by which [onService] resolves the pods of [s] in the state
    [h]: it is made on the store in which the service was just saved. *)
Definition pod_resolution {K : Type} `{!Codec} (kc : kubernetesClient K Cache)
    (s : v1.Service) (h : Handler K Cache) : K * Cache * (list v1.Pod * option error) :=
  getPods kc (client h)
    (Cache_Set json_Marshal (db h) "service" (GetUID s) (AService s)).1 s.

End StoreVocabulary.

(** The two entries through which a service [suid] reaches the events of
    the pod [podUID]: the service record and the reverse-index entry. *)
Definition reverse_index_entry (suid podUID : string) (key : string) : Prop :=
  key = makeKey "service" suid ∨ key = makeKey (makeKey "pod-service" podUID) suid.

(** The service a notification carries, if it is a service change, and the
    tag the callback passes to [onService] for it. *)
Definition changed_service (n : Notification) : option v1.Service :=
  match n with
  | Added (ServiceObj s) | Updated _ (ServiceObj s) | Deleted (ServiceObj s) => Some s
  | _ => None
  end.

Definition eventType_of (n : Notification) : string :=
  match n with
  | Added _ => "addedService"
  | Updated _ _ => "updatedService"
  | Deleted _ => "deletedService"
  end.

(** A watched change of the service [uid]. *)
Definition change_of (uid : string) (n : Notification) : Prop :=
  ∃ s, changed_service n = Some s ∧ GetUID s = uid ∧ watched_service s.

(** The resource versions of the services a sequence of changes carries. *)
Definition versions (ns : list Notification) : list string :=
  omap (λ n, GetResourceVersion <$> changed_service n) ns.

(** Strictly increasing, in the order Go compares strings in. *)
Definition increasing (vs : list string) : Prop :=
  StronglySorted (strict String.le) vs.

(** The number a resource version denotes when it is a decimal numeral:
    the most significant digit comes first. *)
Definition digit (a : ascii) : option N :=
  if decide (48 ≤ N_of_ascii a ∧ N_of_ascii a ≤ 57)%N
  then Some (N_of_ascii a - 48)%N else None.

Fixpoint number_of (v : string) : option N :=
  match v with
  | EmptyString => Some 0%N
  | String a v' =>
      match digit a, number_of v' with
      | Some d, Some n => Some (d * 10 ^ N.of_nat (String.length v') + n)%N
      | _, _ => None
      end
  end.

Definition number (v : string) : option N :=
  if decide (v = "") then None else number_of v.

(** The order of versions as numbers. *)
Definition version_le (v w : string) : Prop :=
  ∃ n m, number v = Some n ∧ number w = Some m ∧ (n ≤ m)%N.

Definition version_lt (v w : string) : Prop :=
  ∃ n m, number v = Some n ∧ number w = Some m ∧ (n < m)%N.

(** Two numerals with the same number of digits. *)
Definition same_width (v w : string) : Prop :=
  String.length v = String.length w ∧ is_Some (number v) ∧ is_Some (number w).

Section VersionVocabulary.

Context `{!Codec}.

(** The version the record [r] of a service holds. *)
Definition recorded_version (r : Result) : string :=
  ReferenceVersion (Unmarshal (λ b, json_Unmarshal_L9Event b L9Event_zero) r).1.

(** A record of the service exists and its version, as a number, is not
    older than the incoming one. *)
Definition recorded_not_older (s : v1.Service) (r : Result) : Prop :=
  Exists r = true ∧ version_le (GetResourceVersion s) (recorded_version r).

End VersionVocabulary.

(** ** Sample collaborators

    A small codec and a small client, used to run the handler on concrete
    notifications. *)
Module Sample.

Definition meta (name namespace uid version : string) : metav1.ObjectMeta :=
  {| metav1.Name := name; metav1.Namespace := namespace; metav1.UID := uid;
     metav1.ResourceVersion := version; metav1.CreationTimestamp := 0;
     metav1.Labels := ∅; metav1.Annotations := ∅ |}.

Definition service (name namespace uid version : string) : v1.Service :=
  {| v1.Service_ObjectMeta := meta name namespace uid version;
     v1.Selector := ∅ |}.

Definition pod (name namespace uid : string) : v1.Pod :=
  {| v1.Pod_Kind := "Pod"; v1.Pod_APIVersion := "v1";
     v1.Pod_ObjectMeta := meta name namespace uid "1";
     v1.Status := {| v1.StartTime := None; v1.PodIP := ""; v1.HostIP := "" |} |}.

Definition event (namespace uid : string) (ref : v1.ObjectReference) : v1.Event :=
  {| v1.Event_ObjectMeta := meta "event" namespace uid "1";
     v1.InvolvedObject := ref; v1.Reason := "Started"; v1.Message := "started";
     v1.Source := {| v1.Component := "kubelet"; v1.Host := "node-1" |} |}.

Definition ref (kind namespace name uid : string) : v1.ObjectReference :=
  {| v1.Kind := kind; v1.Namespace := namespace; v1.Name := name;
     v1.UID := uid; v1.APIVersion := "v1" |}.

(** A service is written as its name, an enriched event as its reference
    version; an unstructured object is written as its uid and decoded into
    a pod of that uid.  The empty payload does not decode. *)
#[local] Instance codec : Codec := {|
  json_Marshal x :=
    match x with
    | AService s => (GetName s, None)
    | APods _ => ("pods", None)
    | ABool true => ("true", None)
    | ABool false => ("false", None)
    | AMap _ => ("{}", None)
    | AEvent ev => (ReferenceVersion ev, None)
    end;
  json_Unmarshal_L9Event b ev :=
    if decide (b = "") then (ev, Some (errorString "unexpected end of JSON input"))
    else ({| ID := ID ev; Timestamp := Timestamp ev; Component := Component ev;
             Host := Host ev; Message := Message ev; Namespace := Namespace ev;
             Reason := Reason ev; ReferenceUID := ReferenceUID ev;
             ReferenceNamespace := ReferenceNamespace ev;
             ReferenceName := ReferenceName ev;
             ReferenceKind := ReferenceKind ev; ReferenceVersion := b;
             ObjectUid := ObjectUid ev; Labels := Labels ev;
             Annotations := Annotations ev; Address := Address ev;
             Pod := Pod ev |}, None);
  json_Unmarshal_Service b :=
    if decide (b = "")
    then (service "" "" "" "", Some (errorString "unexpected end of JSON input"))
    else (service b "" "" "", None);
  runtime_Encode u := (GetUID u, None);
  runtime_DecodeInto b p :=
    ({| v1.Pod_Kind := "Pod"; v1.Pod_APIVersion := "v1";
        v1.Pod_ObjectMeta := meta b "" b "";
        v1.Status := v1.Status p |}, None)
|}.

(** A cluster with one pod, [web-0] with uid [P1], selected by every
    service, and no node address.  The client does not use the store. *)
Definition cluster : kubernetesClient unit Cache := {|
  getObject k d r :=
    if decide (v1.Kind r = "Pod")
    then (k, d, (Some {| unstructured.Kind := "Pod";
                         unstructured.Object_ObjectMeta :=
                           meta (v1.Name r) (v1.Namespace r) (v1.UID r) "1" |}, None))
    else (k, d, (None, Some (errorString "object not found")));
  getNodeAddress k d host := (k, d, ([], Some (errorString "node not found")));
  getPods k d s := (k, d, ([pod "web-0" "default" "P1"], None));
  time_Now k := 1600000000
|}.

Definition store : Cache := {| Cache_db := buntdb.Open 0 |}.

Definition handler_on (c : Cache) : Handler unit Cache :=
  {| client := tt; ch := []; db := c; logged := [] |}.

Definition handler : Handler unit Cache := handler_on store.

(** An event about the pod [web-0], a service that selects it, and a
    service of a system namespace. *)
Definition e1 : v1.Event := event "default" "E1" (ref "Pod" "default" "web-0" "P1").
Definition s1 (version : string) : v1.Service := service "S1" "default" "U1" version.
Definition dns : v1.Service := service "kube-dns" "kube-system" "U9" "7".

(** The store once something has recorded the event [E1], and once
    something has recorded the service [U1] at version [5]. *)
Definition store_E1 : Cache :=
  (Cache_Set json_Marshal store "events" "E1" (AEvent (base_event e1 []))).1.
Definition store_U1 : Cache :=
  (Cache_Set json_Marshal store "events" "U1"
     (AEvent {| ID := "U1-5"; Timestamp := 1600000000; Component := "S1";
                Host := ""; Message := "addedService"; Namespace := "default";
                Reason := "addedService"; ReferenceUID := "";
                ReferenceNamespace := ""; ReferenceName := "";
                ReferenceKind := ""; ReferenceVersion := "5"; ObjectUid := "U1";
                Labels := ∅; Annotations := ∅; Address := []; Pod := ∅ |})).1.

(** A store that was closed. *)
Definition store_closed : Cache :=
  {| Cache_db := {| buntdb.closed := true; buntdb.clock := 0;
                    buntdb.keys := ∅; buntdb.idxs := ∅ |} |}.

Definition process (ns : list Notification) (h : Handler unit Cache)
  : Handler unit Cache := run cluster ns h.

(** An event about a node, which the cluster does not resolve. *)
Definition e2 : v1.Event := event "default" "E2" (ref "Node" "" "node-1" "N1").

(** The handler after the service [U1] was added at version [5]. *)
Definition handler_S1 : Handler unit Cache :=
  process [Added (ServiceObj (s1 "5"))] handler.

(** A decoder for [Cache.Get] that keeps the payload as it is. *)
Definition raw (b : string) (obj : string) : string * option error := (b, None).

(** A marshaller that fails on [None]. *)
Definition strict (x : option string) : string * option error :=
  match x with
  | Some b => (b, None)
  | None => ("", Some (errorString "json: unsupported value"))
  end.

End Sample.

(** ** Vocabulary of the further properties *)

(** A call of [ExpireSet], and calls made one after the other, whatever
    they return. *)
Record write (V : Type) : Type := {
  w_table : string;
  w_uid : string;
  w_obj : V;
  w_expires : Z
}.
Arguments w_table {V}.
Arguments w_uid {V}.
Arguments w_obj {V}.
Arguments w_expires {V}.

Definition Cache_writes {V : Type} (json_Marshal : V → string * option error)
    (ws : list (write V)) (c : Cache) : Cache :=
  foldl (λ c w,
           (Cache_ExpireSet json_Marshal c (w_table w) (w_uid w) (w_obj w)
              (w_expires w)).1) c ws.

(** Every index is a named prefix index of its table, and every key is the
    key of some id in a table that has its index. *)
Definition well_indexed (c : Cache) : Prop :=
  (∀ name pattern,
     buntdb.idxs (Cache_db c) !! name = Some pattern →
     name ≠ "" ∧ pattern = makeKey name "*") ∧
  (∀ key,
     is_Some (buntdb.keys (Cache_db c) !! key) →
     ∃ table uid,
       key = makeKey table uid ∧ is_Some (buntdb.idxs (Cache_db c) !! table)).

(** The object a notification is handled for, and the identity of the event
    the handler makes for it. *)
Definition object_of (n : Notification) : Obj :=
  match n with
  | Added obj | Updated _ obj | Deleted obj => obj
  end.

Definition identity (obj : Obj) : option string :=
  match obj with
  | EventObj e => Some (GetUID e)
  | ServiceObj s => Some (GetUID s +:+ "-" +:+ GetResourceVersion s)
  | OtherObj => None
  end.

(** An object the callbacks do nothing for. *)
Definition ignored (obj : Obj) : Prop :=
  match obj with
  | EventObj e => ¬ watched_event e
  | ServiceObj s => ¬ watched_service s
  | OtherObj => True
  end.

(** The event [makeL9Event] returns for a resolved involved object [u],
    with the pod map [pod]. *)
Definition object_event (e : v1.Event) (u : unstructured.Unstructured)
    (address : list string) (pod : gmap string value) : L9Event :=
  {| ID := GetUID e;
     Timestamp := metav1.CreationTimestamp (GetObjectMeta e);
     Component := v1.Component (v1.Source e);
     Host := v1.Host (v1.Source e);
     Message := v1.Message e;
     Namespace := GetNamespace e;
     Reason := v1.Reason e;
     ReferenceUID := v1.UID (v1.InvolvedObject e);
     ReferenceNamespace := GetNamespace u;
     ReferenceName := v1.Name (v1.InvolvedObject e);
     ReferenceKind := unstructured.Kind u;
     ReferenceVersion := v1.APIVersion (v1.InvolvedObject e);
     ObjectUid := GetUID u;
     Labels := GetLabels u;
     Annotations := GetAnnotations u;
     Address := address;
     Pod := pod |}.

(** The cache read at the instant [now]. *)
Definition Cache_at (now : Z) (c : Cache) : Cache :=
  {| Cache_db := {| buntdb.closed := buntdb.closed (Cache_db c); buntdb.clock := now;
                    buntdb.keys := buntdb.keys (Cache_db c);
                    buntdb.idxs := buntdb.idxs (Cache_db c) |} |}.

(** An object the callbacks hand on to [onEvent] or [onService] and that
    passes the namespace filter there, and the id under which its record is
    looked up in the events table. *)
Definition watched (obj : Obj) : Prop :=
  match obj with
  | EventObj e => watched_event e
  | ServiceObj s => watched_service s
  | OtherObj => False
  end.

Definition lookup_uid (obj : Obj) : string :=
  match obj with
  | EventObj e => GetUID e
  | ServiceObj s => GetUID s
  | OtherObj => ""
  end.

(** What the loop of [makeL9ServiceEvent] stores for a pod: its serialised
    information, or the text of the error. *)
Definition pod_entry `{!Codec} (p : v1.Pod) : value :=
  match json_Marshal (AMap (miniPodInfo p)) with
  | (_, Some e) => VString (Error e)
  | (b, None) => VString b
  end.

(** What a step adds to the channel and the log: at most one event, of
    identity [uid], and log lines. *)
Definition appends {K DB : Type} (uid : string) (h h' : Handler K DB) : Prop :=
  ∃ evs l, ch h' = ch h ++ evs ∧ (length evs ≤ 1)%nat ∧
           Forall (λ ev, ID ev = uid) evs ∧ logged h' = logged h ++ l.

(** ** More sample collaborators *)
Module Scenario.

#[local] Existing Instance Sample.codec.

(** A codec like the sample one, whose decoding into a pod fails. *)
Definition undecodable : Codec := {|
  json_Marshal := @json_Marshal Sample.codec;
  json_Unmarshal_L9Event := @json_Unmarshal_L9Event Sample.codec;
  json_Unmarshal_Service := @json_Unmarshal_Service Sample.codec;
  runtime_Encode := @runtime_Encode Sample.codec;
  runtime_DecodeInto b p := (p, Some (errorString "no kind registered"))
|}.

(** A cluster like the sample one, whose pod resolution fails. *)
Definition unreachable : kubernetesClient unit Cache := {|
  getObject := getObject Sample.cluster;
  getNodeAddress := getNodeAddress Sample.cluster;
  getPods k d s := (k, d, ([], Some (errorString "connection refused")));
  time_Now := time_Now Sample.cluster
|}.

(** A client whose answers depend on its own state, and during whose
    calls time passes: the first pod resolution finds [web-0], every later
    one finds no pod. *)
Definition fickle : kubernetesClient bool Cache := {|
  getObject k d r :=
    (k, Cache_at (buntdb.clock (Cache_db d) + 1) d,
     (getObject Sample.cluster tt d r).2);
  getNodeAddress k d host :=
    (k, Cache_at (buntdb.clock (Cache_db d) + 1) d,
     ([], Some (errorString "node not found")));
  getPods (k : bool) d s :=
    if k then (k, d, ([], None))
    else (true, Cache_at (buntdb.clock (Cache_db d) + 1) d,
          ([Sample.pod "web-0" "default" "P1"], None));
  time_Now k := 1600000000
|}.

(** The handler on that client before any notification, and after the
    service [U1] was added at version [5]. *)
Definition fresh : Handler bool Cache :=
  {| client := false; ch := []; db := Sample.store; logged := [] |}.

Definition after_S1 : Handler bool Cache :=
  run fickle [Added (ServiceObj (Sample.s1 "5"))] fresh.

(** The pod [web-0] and a node, as the client returns them. *)
Definition web0 : unstructured.Unstructured :=
  {| unstructured.Kind := "Pod";
     unstructured.Object_ObjectMeta := Sample.meta "web-0" "default" "P1" "1" |}.

Definition node1 : unstructured.Unstructured :=
  {| unstructured.Kind := "Node";
     unstructured.Object_ObjectMeta := Sample.meta "node-1" "" "N1" "1" |}.

(** The pod [web-0] as the sample codec decodes it. *)
Definition web0_decoded : v1.Pod :=
  {| v1.Pod_Kind := ""; v1.Pod_APIVersion := "";
     v1.Pod_ObjectMeta := Sample.meta "P1" "" "P1" "";
     v1.Status := {| v1.StartTime := None; v1.PodIP := ""; v1.HostIP := "" |} |}.

(** An event of a system namespace. *)
Definition system_event : v1.Event :=
  Sample.event "kube-system" "E9" (Sample.ref "Pod" "kube-system" "dns-0" "P9").

End Scenario.


(** * Properties of the cache *)

Section CacheFacts.

Context {V : Type} (json_Marshal : V → string * option error).
Context {T : Type} (json_Unmarshal : string → T → T * option error).
Context (call_first : bool).

Lemma indexExists_elem table indices :
  indexExists table indices = true ↔ table ∈ indices.
Proof.
  induction indices as [|ix rest IH]; simpl.
  - split; [discriminate | intros H; inversion H].
  - destruct (decide (table = ix)) as [->|Hne].
    + split; [intros _; left | reflexivity].
    + rewrite IH. split; [intros H; by right | intros H].
      inversion H; subst; [done | assumption].
Qed.

Lemma indexExists_names (ix : gmap string string) table :
  indexExists table (map_to_list ix).*1 = true ↔ is_Some (ix !! table).
Proof.
  rewrite indexExists_elem, list_elem_of_fmap. split.
  - intros [[k v] [-> Hkv]]. apply elem_of_map_to_list in Hkv. eauto.
  - intros [v Hv]. exists (table, v). split; [done|]. by apply elem_of_map_to_list.
Qed.

(** What a committed [ExpireSet] has done to the store. *)
Lemma ExpireSet_inv c table uid obj expires c' :
  Cache_ExpireSet json_Marshal c table uid obj expires = (c', None) →
  ∃ b, json_Marshal obj = (b, None) ∧
       buntdb.closed (Cache_db c) = false ∧
       (buntdb.idxs (Cache_db c) !! table = None → table ≠ "") ∧
       Cache_db c' =
         buntdb.tx_Set
           {| buntdb.closed := false; buntdb.clock := buntdb.clock (Cache_db c);
              buntdb.keys := buntdb.keys (Cache_db c);
              buntdb.idxs := registered table (buntdb.idxs (Cache_db c)) |}
           (makeKey table uid) b (ExpireSet_opts expires).
Proof.
  unfold Cache_ExpireSet, buntdb.Update, registered.
  destruct (json_Marshal obj) as [b [e|]]; [discriminate|].
  destruct c as [d]; simpl. destruct d as [cl now ks ix]; simpl.
  destruct cl; [discriminate|].
  destruct (indexExists table _) eqn:Hex.
  - intros [= <-]. exists b. apply indexExists_names in Hex as [p Hp].
    rewrite Hp. split_and!; done.
  - assert (ix !! table = None) as Hnone.
    { apply eq_None_not_Some. intros H. apply indexExists_names in H. congruence. }
    unfold buntdb.tx_CreateIndex; simpl. destruct (decide (table = "")); [discriminate|].
    rewrite Hnone. intros [= <-]. exists b. split_and!; done.
Qed.


(** A write that fails leaves the store as it was. *)
Lemma ExpireSet_error_unchanged c table uid obj expires c' e :
  Cache_ExpireSet json_Marshal c table uid obj expires = (c', Some e) → c' = c.
Proof.
  unfold Cache_ExpireSet, buntdb.Update.
  destruct (json_Marshal obj) as [b [e'|]]; [by intros [= <- _]|].
  destruct c as [d]; simpl. destruct (buntdb.closed d); [by intros [= <- _]|].
  destruct (indexExists table _).
  - discriminate.
  - destruct (buntdb.tx_CreateIndex d table (makeKey table "*")) as [tx [e'|]];
      [by intros [= <- _] | discriminate].
Qed.

Lemma tx_Get_tx_Set tx key b expires :
  expires ≤ 0 →
  buntdb.tx_Get (buntdb.tx_Set tx key b (ExpireSet_opts expires)) key = (b, None).
Proof.
  intros Hle. unfold buntdb.tx_Get, buntdb.tx_Set, ExpireSet_opts; simpl.
  rewrite lookup_insert_eq. rewrite bool_decide_eq_false_2 by lia. done.
Qed.

(** C9: when the value cannot be marshalled, [ExpireSet] returns the
    marshalling error and the cache it was given, unchanged: the write
    transaction is never opened, so no key is written and no index is
    created. *)
Theorem ExpireSet_marshal_error c table uid obj expires b e :
  json_Marshal obj = (b, Some e) →
  Cache_ExpireSet json_Marshal c table uid obj expires = (c, Some e).
Proof. intros H. unfold Cache_ExpireSet. by rewrite H. Qed.

(** A write to a table that has its index commits on an open store when
    the value marshals: the index is found and not created again. *)
Lemma ExpireSet_indexed c table uid obj expires :
  (json_Marshal obj).2 = None → buntdb.closed (Cache_db c) = false →
  is_Some (buntdb.idxs (Cache_db c) !! table) →
  ∃ c', Cache_ExpireSet json_Marshal c table uid obj expires = (c', None).
Proof.
  intros Hb Hopen Hix. unfold Cache_ExpireSet, buntdb.Update.
  destruct (json_Marshal obj) as [b err]; simpl in Hb; subst err.
  rewrite Hopen. unfold buntdb.tx_Indexes.
  apply indexExists_names in Hix. rewrite Hix. eauto.
Qed.

(** No call of [ExpireSet] closes the store or changes an index that is
    there, whatever table it writes to and whatever it returns. *)
Lemma ExpireSet_keeps_index c t u obj expires table p :
  buntdb.closed (Cache_db c) = false →
  buntdb.idxs (Cache_db c) !! table = Some p →
  buntdb.closed (Cache_db (Cache_ExpireSet json_Marshal c t u obj expires).1) = false ∧
  buntdb.idxs (Cache_db (Cache_ExpireSet json_Marshal c t u obj expires).1) !! table
    = Some p.
Proof.
  intros Hopen Hp.
  destruct (Cache_ExpireSet json_Marshal c t u obj expires) as [c1 [e|]] eqn:Hset; simpl.
  - by rewrite (ExpireSet_error_unchanged _ _ _ _ _ _ _ Hset).
  - destruct (ExpireSet_inv _ _ _ _ _ _ Hset) as (b & _ & _ & _ & Hdb).
    rewrite Hdb; simpl. split; [done|]. unfold registered.
    destruct (buntdb.idxs (Cache_db c) !! t) eqn:Ht; [done|].
    rewrite lookup_insert_ne; [done|]. intros ->. congruence.
Qed.

Lemma Cache_writes_keeps_index ws c table p :
  buntdb.closed (Cache_db c) = false →
  buntdb.idxs (Cache_db c) !! table = Some p →
  buntdb.closed (Cache_db (Cache_writes json_Marshal ws c)) = false ∧
  buntdb.idxs (Cache_db (Cache_writes json_Marshal ws c)) !! table = Some p.
Proof.
  revert c. induction ws as [|w ws IH]; intros c Hopen Hp; [done|].
  unfold Cache_writes; simpl.
  destruct (ExpireSet_keeps_index c (w_table w) (w_uid w) (w_obj w) (w_expires w)
              table p Hopen Hp) as [Ho Hi].
  by apply IH.
Qed.

(** C7: after a successful [ExpireSet] (hence [Set]) on [table], an index
    named [table] is registered.  When the table had no index, the write
    registers the prefix index [table-*] and stores the key in the same
    committed transaction; when it had one, the indexes are left as they
    were.  No later write to the table changes the indexes again, and
    every later write to the table (after any other calls of [ExpireSet])
    finds the index: it does not create it again, so it commits whenever
    its value marshals, and leaves the indexes as they were. *)
Theorem ExpireSet_registers_index c table uid obj expires c' :
  Cache_ExpireSet json_Marshal c table uid obj expires = (c', None) →
  table ∈ (buntdb.tx_Indexes (Cache_db c')).1 ∧
  (buntdb.idxs (Cache_db c) !! table = None →
     buntdb.idxs (Cache_db c')
       = <[table := makeKey table "*"]> (buntdb.idxs (Cache_db c)) ∧
     is_Some (buntdb.keys (Cache_db c') !! makeKey table uid)) ∧
  (is_Some (buntdb.idxs (Cache_db c) !! table) →
     buntdb.idxs (Cache_db c') = buntdb.idxs (Cache_db c)) ∧
  (∀ uid2 obj2 expires2 c2 err,
     Cache_ExpireSet json_Marshal c' table uid2 obj2 expires2 = (c2, err) →
     buntdb.idxs (Cache_db c2) = buntdb.idxs (Cache_db c')) ∧
  (∀ ws uid2 obj2 expires2,
     indexExists table
       (buntdb.tx_Indexes (Cache_db (Cache_writes json_Marshal ws c'))).1 = true ∧
     buntdb.idxs (Cache_db (Cache_writes json_Marshal ws c')) !! table
       = buntdb.idxs (Cache_db c') !! table ∧
     ((json_Marshal obj2).2 = None →
        ∃ c2,
          Cache_ExpireSet json_Marshal (Cache_writes json_Marshal ws c')
            table uid2 obj2 expires2 = (c2, None) ∧
          buntdb.idxs (Cache_db c2)
            = buntdb.idxs (Cache_db (Cache_writes json_Marshal ws c')))).
Proof.
  intros Hset. destruct (ExpireSet_inv _ _ _ _ _ _ Hset) as (b & Hb & Hopen & Hname & Hdb).
  assert (is_Some (buntdb.idxs (Cache_db c') !! table)) as Hreg.
  { rewrite Hdb; simpl. unfold registered.
    destruct (buntdb.idxs (Cache_db c) !! table) eqn:Hix; [by rewrite Hix|].
    rewrite lookup_insert_eq. eauto. }
  split_and!.
  - unfold buntdb.tx_Indexes; simpl. apply indexExists_elem.
    by apply indexExists_names.
  - intros Hnone. rewrite Hdb; simpl. unfold registered. rewrite Hnone.
    split; [done|]. rewrite lookup_insert_eq. eauto.
  - intros [p Hp]. rewrite Hdb; simpl. unfold registered. by rewrite Hp.
  - intros uid2 obj2 expires2 c2 [e|] H2.
    + by rewrite (ExpireSet_error_unchanged _ _ _ _ _ _ _ H2).
    + destruct (ExpireSet_inv _ _ _ _ _ _ H2) as (b2 & _ & _ & _ & Hdb2).
      rewrite Hdb2; simpl. unfold registered.
      destruct Hreg as [p Hp]. by rewrite Hp.
  - intros ws uid2 obj2 expires2. destruct Hreg as [p Hp].
    assert (buntdb.closed (Cache_db c') = false) as Hopen' by (by rewrite Hdb).
    destruct (Cache_writes_keeps_index ws c' table p Hopen' Hp) as [Ho Hi].
    split_and!.
    + unfold buntdb.tx_Indexes; simpl. apply indexExists_names. rewrite Hi. eauto.
    + by rewrite Hi, Hp.
    + intros Hb2.
      destruct (ExpireSet_indexed (Cache_writes json_Marshal ws c') table uid2 obj2
                  expires2 Hb2 Ho) as [c2 H2]; [rewrite Hi; eauto|].
      exists c2. split; [done|].
      destruct (ExpireSet_inv _ _ _ _ _ _ H2) as (b2 & _ & _ & _ & Hdb2).
      rewrite Hdb2; simpl. unfold registered. by rewrite Hi.
Qed.

(** C8: when [v] marshals to [b], a [Set] on an open store under a named
    table succeeds, and a [Get] of the same table and id right after a
    successful [Set] finds the key: the store returns exactly [b], [Get]
    reports the key as not missing and hands [b] to the decoder. *)
Theorem Set_then_Get c table uid v b :
  json_Marshal v = (b, None) →
  (buntdb.closed (Cache_db c) = false → table ≠ "" →
     ∃ c', Cache_Set json_Marshal c table uid v = (c', None)) ∧
  (∀ c' obj,
     Cache_Set json_Marshal c table uid v = (c', None) →
     buntdb.tx_Get (Cache_db c') (makeKey table uid) = (b, None) ∧
     Cache_Get json_Unmarshal call_first c' table uid obj
       = (false, (json_Unmarshal b obj).2, (json_Unmarshal b obj).1) ∧
     Cache_Lookup c' table uid = ({| payload := Some b |}, None)).
Proof.
  intros Hb. split.
  - intros Hopen Hname. unfold Cache_Set, Cache_ExpireSet, buntdb.Update.
    rewrite Hb, Hopen. unfold buntdb.tx_Indexes.
    destruct (indexExists table (map_to_list (buntdb.idxs (Cache_db c))).*1) eqn:Hex;
      [eauto|].
    unfold buntdb.tx_CreateIndex. destruct (decide (table = "")); [done|].
    destruct (buntdb.idxs (Cache_db c) !! table) eqn:Hix; [|eauto].
    assert (indexExists table (map_to_list (buntdb.idxs (Cache_db c))).*1 = true)
      by (apply indexExists_names; eauto).
    congruence.
  - intros c' obj Hset.
    destruct (ExpireSet_inv _ _ _ _ _ _ Hset) as (b' & Hb' & Hopen & _ & Hdb).
    assert (b' = b) as -> by congruence.
    assert (buntdb.tx_Get (Cache_db c') (makeKey table uid) = (b, None)) as Hget.
    { rewrite Hdb. by apply tx_Get_tx_Set. }
    assert (buntdb.closed (Cache_db c') = false) as Hopen' by (by rewrite Hdb).
    split_and!; [done| |].
    + unfold Cache_Get, buntdb.View. rewrite Hopen', Hget.
      by destruct (json_Unmarshal b obj), call_first.
    + unfold Cache_Lookup, buntdb.View. by rewrite Hopen', Hget.
Qed.

End CacheFacts.

(** * Properties of the handler *)

Ltac run_monad :=
  unfold mbind, mret, M_bind, M_ret, Get, List, Set_, call, Now, send,
    log_error, log_Println in *.

Section HandlerFacts.

Context {K DB : Type} `{!Cachier DB} `{!Codec}.
Context (kc : kubernetesClient K DB).

Implicit Types h : Handler K DB.

Lemma only_logs_refl h : only_logs h h.
Proof. repeat split. exists []. by rewrite app_nil_r. Qed.

Lemma only_logs_trans h1 h2 h3 : only_logs h1 h2 → only_logs h2 h3 → only_logs h1 h3.
Proof.
  intros (Hc & Hch & Hdb & l & Hl) (Hc' & Hch' & Hdb' & l' & Hl').
  repeat split; try congruence. exists (l ++ l'). rewrite Hl', Hl. by rewrite app_assoc.
Qed.

Lemma only_logs_with_log h l : only_logs h (with_log h l).
Proof. repeat split. by exists l. Qed.

(** The loop resolves the ids in order and keeps the names it finds. *)
Lemma getPodServices_loop_spec serviceIds services h :
  ∃ h', getPodServices_loop serviceIds services h
          = (services ++ omap (resolved_name (db h)) serviceIds, h') ∧
        only_logs h h'.
Proof.
  revert services h. induction serviceIds as [|sId rest IH]; intros services h; simpl.
  - exists h. rewrite app_nil_r. split; [done | apply only_logs_refl].
  - run_monad. unfold resolved_name at 1.
    destruct (db_Get (db h) "service" sId) as [res [e|]].
    + apply IH.
    + destruct (Exists res); [|apply IH].
      destruct (Unmarshal json_Unmarshal_Service res) as [v [e|]].
      * destruct (IH services (with_log h [Error e])) as (h' & Heq & Hlog).
        exists h'. split; [exact Heq|].
        eapply only_logs_trans; [apply only_logs_with_log | exact Hlog].
      * destruct (IH (services ++ [GetName v]) h) as (h' & Heq & Hlog).
        exists h'. split; [|done]. rewrite Heq. by rewrite <- app_assoc.
Qed.

Lemma getPodServices_spec uid h serviceIds :
  db_List (db h) (makeKey "pod-service" uid) = (serviceIds, None) →
  ∃ h', getPodServices uid h = ((omap (resolved_name (db h)) serviceIds, None), h') ∧
        only_logs h h'.
Proof.
  intros Hlist. unfold getPodServices. run_monad. rewrite Hlist.
  destruct (getPodServices_loop_spec serviceIds [] h) as (h' & Heq & Hlog).
  rewrite Heq. eauto.
Qed.

Lemma getPodServices_logs uid h :
  only_logs h (getPodServices uid h).2.
Proof.
  unfold getPodServices. run_monad.
  destruct (db_List (db h) (makeKey "pod-service" uid)) as [ids [e|]] eqn:Hl; simpl.
  - apply only_logs_refl.
  - destruct (getPodServices_loop_spec ids [] h) as (h' & Heq & Hlog). by rewrite Heq.
Qed.


Lemma with_Pod_id ne : with_Pod ne (Pod ne) = ne.
Proof. by destruct ne. Qed.

Lemma with_Pod_twice ne m m' : with_Pod (with_Pod ne m) m' = with_Pod ne m'.
Proof. done. Qed.

(** [addPodDetails] changes the pod map of the event and nothing else. *)
Lemma addPodDetails_spec ne u h :
  ∃ m, (addPodDetails ne u h).1.1 = with_Pod ne m ∧
       only_logs h (addPodDetails ne u h).2.
Proof.
  unfold addPodDetails.
  destruct (decide (ToLower (unstructured.Kind u) ≠ "pod")).
  { exists (Pod ne). simpl. split; [by rewrite with_Pod_id | apply only_logs_refl]. }
  destruct (unstructuredToPod u) as [[p|] [e|]]; simpl;
    try (exists (Pod ne); split; [by rewrite with_Pod_id | apply only_logs_refl]).
  run_monad. pose proof (getPodServices_logs (GetUID p) h) as Hlog.
  destruct (getPodServices (GetUID p) h) as [[services err] h']; simpl in *.
  eexists. split; [reflexivity | exact Hlog].
Qed.

Lemma makeL9Event_nil e address h :
  makeL9Event e None address h = (base_event e address, h).
Proof. done. Qed.

Lemma makeL9Event_spec e u address h :
  let r := makeL9Event e u address h in
  ID r.1 = GetUID e ∧ Address r.1 = address ∧ only_logs h r.2.
Proof.
  destruct u as [u|]; simpl; [|split_and!; [done..|apply only_logs_refl]].
  run_monad.
  destruct (addPodDetails_spec (base_event e address) u h) as (m & Hne & Hlog).
  fold (base_event e address).
  destruct (addPodDetails (base_event e address) u h) as [[ne err] h']; simpl in *.
  subst ne. destruct err as [x|]; simpl; (split_and!; [done..|]); [|done].
  eapply only_logs_trans; [exact Hlog | apply (only_logs_with_log h' [Error x])].
Qed.

Lemma unwatched_event e : watched_event e →
  bool_decide (GetNamespace e ∈ ["kube-system"; "kubernetes"; "kubernetes-dashboard"])
    = false.
Proof. intros Hw. by apply bool_decide_eq_false_2. Qed.

(** [onEvent] past its two gates. *)
Lemma onEvent_pass e h r k1 d1 obj err1 k2 d2 addr err2 :
  watched_event e →
  db_Get (db h) eventCacheTable (GetUID e) = (r, None) →
  Exists r = false →
  getObject kc (client h) (db h) (v1.InvolvedObject e) = (k1, d1, (obj, err1)) →
  getNodeAddress kc k1 d1 (v1.Host (v1.Source e)) = (k2, d2, (addr, err2)) →
  onEvent kc e h =
    let '(ev, h3) :=
      makeL9Event e obj addr
        {| client := k2; ch := ch h; db := d2;
           logged := logged h ++ lines err1 ++ lines err2 |} in
    (None, {| client := client h3; ch := ch h3 ++ [ev]; db := db h3;
              logged := logged h3 |}).
Proof.
  intros Hw Hget Hex Hobj Haddr. unfold onEvent. rewrite (unwatched_event _ Hw).
  run_monad. rewrite Hget, Hex; simpl. rewrite Hobj.
  destruct err1 as [x1|]; simpl; rewrite Haddr;
    destruct err2 as [x2|]; simpl; rewrite <- ?app_assoc, ?app_nil_r; simpl;
    by destruct (makeL9Event _ _ _ _) as [ev h3].
Qed.


(** [onEvent] pushes at most one event, and only past its gates. *)
Lemma onEvent_push e h res h' :
  onEvent kc e h = (res, h') → ch h' ≠ ch h →
  watched_event e ∧
  (∃ r, db_Get (db h) eventCacheTable (GetUID e) = (r, None) ∧ Exists r = false) ∧
  ∃ ev, ch h' = ch h ++ [ev] ∧ ID ev = GetUID e.
Proof.
  intros Hrun Hch.
  destruct (decide (watched_event e)) as [Hw|Hw].
  2:{ unfold onEvent in Hrun. unfold watched_event in Hw.
      rewrite bool_decide_eq_true_2 in Hrun by (by destruct (decide (GetNamespace e ∈
        ["kube-system"; "kubernetes"; "kubernetes-dashboard"]))).
      by inversion Hrun; subst. }
  destruct (db_Get (db h) eventCacheTable (GetUID e)) as [r [x|]] eqn:Hget.
  { unfold onEvent in Hrun. rewrite (unwatched_event _ Hw) in Hrun.
    run_monad. rewrite Hget in Hrun. by inversion Hrun; subst. }
  destruct (Exists r) eqn:Hex.
  { unfold onEvent in Hrun. rewrite (unwatched_event _ Hw) in Hrun.
    run_monad. rewrite Hget, Hex in Hrun. by inversion Hrun; subst. }
  split; [done|]. split; [eauto|].
  destruct (getObject kc (client h) (db h) (v1.InvolvedObject e))
    as [[k1 d1] [obj err1]] eqn:Hobj.
  destruct (getNodeAddress kc k1 d1 (v1.Host (v1.Source e)))
    as [[k2 d2] [addr err2]] eqn:Haddr.
  rewrite (onEvent_pass _ _ _ _ _ _ _ _ _ _ _ Hw Hget Hex Hobj Haddr) in Hrun.
  pose proof (makeL9Event_spec e obj addr
    {| client := k2; ch := ch h; db := d2;
       logged := logged h ++ lines err1 ++ lines err2 |}) as (Hid & _ & Hlog).
  destruct (makeL9Event _ _ _ _) as [ev h3]; simpl in *.
  inversion Hrun; subst; simpl. exists ev. split; [|done].
  destruct Hlog as (_ & -> & _). done.
Qed.

(** [onEvent] when the identity is recorded: nothing happens. *)
Lemma onEvent_present e h r :
  db_Get (db h) eventCacheTable (GetUID e) = (r, None) → Exists r = true →
  onEvent kc e h = (None, h).
Proof.
  intros Hget Hex. unfold onEvent. case_bool_decide; [done|].
  run_monad. by rewrite Hget, Hex.
Qed.

Lemma deliver_present uid n h r :
  about_event uid n →
  db_Get (db h) eventCacheTable uid = (r, None) → Exists r = true →
  deliver kc n h = h.
Proof.
  intros Hn Hget Hex.
  destruct n as [[e| |]|old [e| |]|[e| |]]; simpl in Hn; try done; subst uid;
    unfold deliver, OnAdd, OnUpdate, OnDelete; run_monad;
    by rewrite (onEvent_present _ _ _ Hget Hex).
Qed.

Lemma run_present uid ns h r :
  Forall (about_event uid) ns →
  db_Get (db h) eventCacheTable uid = (r, None) → Exists r = true →
  run kc ns h = h.
Proof.
  intros Hns Hget Hex. induction Hns as [|n ns Hn _ IH]; [done|].
  unfold run; simpl. rewrite (deliver_present _ _ _ _ Hn Hget Hex). apply IH.
Qed.


Lemma onService_loop_spec suid pods h :
  onService_loop suid pods h =
    ((index_writes suid pods (db h)).2,
     {| client := client h; ch := ch h; db := (index_writes suid pods (db h)).1;
        logged := logged h |}).
Proof.
  revert h. induction pods as [|p rest IH]; intros h; simpl.
  - by destruct h.
  - run_monad.
    destruct (db_Set (db h) (makeKey "pod-service" (GetUID p)) suid (ABool true))
      as [d [e|]]; [done|].
    by rewrite IH.
Qed.

(** A run of [onService_process] that returns [nil] has made all its
    writes and pushed the service event. *)
Lemma onService_process_ok s eventType suid h h' :
  onService_process kc s eventType suid h = (None, h') →
  ∃ d1 k d2 pods d3 d4 ev,
    db_Set (db h) "service" suid (AService s) = (d1, None) ∧
    getPods kc (client h) d1 s = (k, d2, (pods, None)) ∧
    db_Set d2 "service-pods" suid (APods pods) = (d3, None) ∧
    index_writes suid pods d3 = (d4, None) ∧
    ReferenceVersion ev = GetResourceVersion s ∧
    ID ev = GetUID s +:+ "-" +:+ GetResourceVersion s ∧
    h' = {| client := k; ch := ch h ++ [ev]; db := d4; logged := logged h |}.
Proof.
  unfold onService_process. run_monad.
  destruct (db_Set (db h) "service" suid (AService s)) as [d1 [e|]] eqn:H1;
    [done|]; simpl.
  destruct (getPods kc (client h) d1 s) as [[k d2] [pods [e|]]] eqn:H2;
    [done|]; simpl.
  destruct (db_Set d2 "service-pods" suid (APods pods)) as [d3 [e|]] eqn:H3; [done|].
  rewrite onService_loop_spec; simpl.
  destruct (index_writes suid pods d3) as [d4 [e|]] eqn:H4; [done|]; simpl.
  unfold makeL9ServiceEvent; run_monad; simpl. intros [= <-].
  eexists d1, k, d2, pods, d3, d4, _.
  split_and!; [idtac .. | reflexivity]; done.
Qed.

(** A run that returns an error has pushed nothing and logged nothing. *)
Lemma onService_process_error s eventType suid h e h' :
  onService_process kc s eventType suid h = (Some e, h') →
  ch h' = ch h ∧ logged h' = logged h.
Proof.
  unfold onService_process. run_monad.
  destruct (db_Set (db h) "service" suid (AService s)) as [d1 [x|]];
    [by intros [= _ <-]|]; simpl.
  destruct (getPods kc (client h) d1 s) as [[k d2] [pods [x|]]];
    [by intros [= _ <-]|]; simpl.
  destruct (db_Set d2 "service-pods" suid (APods pods)) as [d3 [x|]];
    [by intros [= _ <-]|].
  rewrite onService_loop_spec; simpl.
  destruct (index_writes suid pods d3) as [d4 [x|]]; [by intros [= _ <-]|]; simpl.
  unfold makeL9ServiceEvent; run_monad; simpl. discriminate.
Qed.

Lemma unwatched_service s : watched_service s →
  bool_decide (GetNamespace s ∈ ["kube-system"; "kubernetes-dashboard"]) = false.
Proof. intros [Hw _]. by apply bool_decide_eq_false_2. Qed.

(** The deduplication gate of [onService]. *)
Lemma onService_gate s eventType h r :
  watched_service s →
  db_Get (db h) eventCacheTable (GetUID s) = (r, None) →
  (Exists r = true →
     (Unmarshal (λ b, json_Unmarshal_L9Event b L9Event_zero) r).2 = None) →
  onService kc s eventType h =
    if decide (already_processed s r)
    then (None, with_log h [skip_line s])
    else onService_process kc s eventType (GetUID s) h.
Proof.
  intros Hw Hget Hdec. unfold onService. rewrite (unwatched_service _ Hw).
  destruct Hw as [_ Hname]. destruct (decide (GetName s = "kubernetes")); [done|].
  run_monad. rewrite Hget.
  destruct (decide (already_processed s r)) as [[Hex Hle]|Hnot].
  - rewrite Hex. specialize (Hdec Hex).
    destruct (Unmarshal _ r) as [ex err]; simpl in *. subst err.
    by rewrite bool_decide_eq_true_2.
  - destruct (Exists r) eqn:Hex; [|done]. specialize (Hdec eq_refl).
    destruct (Unmarshal _ r) as [ex err] eqn:Hun; simpl in *. subst err.
    rewrite bool_decide_eq_false_2; [done|].
    intros Hle. apply Hnot. split; [done|]. by rewrite Hun.
Qed.


(** A run of [onService] that pushed an event went through the gate. *)
Lemma onService_pushed s eventType h h' :
  onService kc s eventType h = (None, h') → ch h' ≠ ch h →
  onService_process kc s eventType (GetUID s) h = (None, h').
Proof.
  unfold onService. case_bool_decide; [by intros [= <-]|].
  destruct (decide (GetName s = "kubernetes")); [by intros [= <-]|].
  run_monad. destruct (db_Get (db h) eventCacheTable (GetUID s)) as [r [e|]]; [done|].
  destruct (Exists r); [|done].
  destruct (Unmarshal _ r) as [ex [e|]]; [done|].
  case_bool_decide; [by intros [= <-]|done].
Qed.

(** The pod map of the event made for an involved object that is a pod. *)
Lemma makeL9Event_pod e u address h p :
  ToLower (unstructured.Kind u) = "pod" →
  unstructuredToPod u = (Some p, None) →
  Pod (makeL9Event e (Some u) address h).1 =
    <["impacted_services" := VStrings (getPodServices (GetUID p) h).1.1]>
      (miniPodInfo p).
Proof.
  intros Hkind Hpod. unfold makeL9Event, addPodDetails. run_monad.
  rewrite decide_False by (by intros ?). rewrite Hpod.
  destruct (getPodServices (GetUID p) h) as [[services err] h']; simpl.
  by destruct err.
Qed.

End HandlerFacts.

(** * Properties of the handler over the cache *)

Section StoreFacts.

Context `{!Codec}.

Lemma string_length_app (a b : string) :
  String.length (a +:+ b) = (String.length a + String.length b)%nat.
Proof. induction a as [|x a IH]; simpl; [done|]. by rewrite <- IH. Qed.

Lemma string_app_assoc (a b c : string) : (a +:+ b) +:+ c = a +:+ (b +:+ c).
Proof. induction a as [|x a IH]; simpl; [done|]. unfold String.app in *. simpl. by rewrite IH. Qed.

Lemma strip_prefix_app (p s : string) : strip_prefix p (p +:+ s) = Some s.
Proof.
  induction p as [|a p IH]; [done|]. unfold String.app in *; simpl.
  by rewrite decide_True.
Qed.

Lemma strip_prefix_makeKey table uid :
  strip_prefix (table +:+ "-") (makeKey table uid) = Some uid.
Proof. unfold makeKey. rewrite <- string_app_assoc. apply strip_prefix_app. Qed.

Lemma strip_prefix_Some p s rest : strip_prefix p s = Some rest → s = p +:+ rest.
Proof.
  revert s. induction p as [|a p IH]; intros s; simpl; [by intros [= ->]|].
  destruct s as [|b s]; [done|]. destruct (decide (a = b)) as [->|]; [|done].
  intros Hs. unfold String.app; simpl. f_equal. by apply IH.
Qed.

Lemma makeKey_service_pods suid :
  makeKey "service-pods" suid ≠ makeKey "service" suid.
Proof.
  unfold makeKey, String.app; simpl. intros [= Heq].
  apply (f_equal String.length) in Heq.
  change (String.length ("pods-" +:+ suid) = String.length suid) in Heq.
  rewrite string_length_app in Heq. simpl in Heq. lia.
Qed.

Lemma makeKey_pod_service p suid table uid :
  table ∈ ["service"; "events"] →
  makeKey (makeKey "pod-service" p) suid ≠ makeKey table uid.
Proof.
  intros Ht. unfold makeKey, String.app; simpl.
  apply list_elem_of_In in Ht. simpl in Ht.
  destruct Ht as [<-|[<-|[]]]; simpl; congruence.
Qed.

Lemma makeKey_events table uid uid' :
  table ∈ ["service"; "service-pods"] → makeKey table uid ≠ makeKey "events" uid'.
Proof.
  intros Ht. unfold makeKey, String.app; simpl.
  apply list_elem_of_In in Ht. simpl in Ht.
  destruct Ht as [<-|[<-|[]]]; simpl; congruence.
Qed.

(** ** Writes and the entries they leave alone *)

Lemma agree_on_refl P c : agree_on P c c.
Proof. by repeat split. Qed.

Lemma agree_on_trans P c1 c2 c3 :
  agree_on P c1 c2 → agree_on P c2 c3 → agree_on P c1 c3.
Proof.
  intros (Hc & Hk & Hs) (Hc' & Hk' & Hs'). split_and!; [congruence..|].
  intros key HP. rewrite Hs', Hs; done.
Qed.

Lemma agree_on_weaken (P Q : string → Prop) c c' :
  (∀ key, Q key → P key) → agree_on P c c' → agree_on Q c c'.
Proof. intros HPQ (Hc & Hk & Hs). split_and!; auto. Qed.

(** A write leaves every other key alone, whether it commits or not. *)
Lemma Cache_Set_agree (P : string → Prop) c table uid (v : any) :
  ¬ P (makeKey table uid) →
  agree_on P c (Cache_Set json_Marshal c table uid v).1.
Proof.
  intros HP. destruct (Cache_Set json_Marshal c table uid v) as [c' [e|]] eqn:Hset.
  - rewrite (ExpireSet_error_unchanged _ _ _ _ _ _ _ _ Hset). apply agree_on_refl.
  - destruct (ExpireSet_inv _ _ _ _ _ _ _ Hset) as (b & _ & Hopen & _ & Hdb); simpl.
    unfold agree_on. rewrite Hdb; simpl. split_and!; [done..|].
    intros key Hkey. apply lookup_insert_ne. by intros <-.
Qed.

Lemma Cache_Set_stored c table uid (v : any) c' :
  Cache_Set json_Marshal c table uid v = (c', None) →
  stored c' (makeKey table uid) (json_Marshal v).1.
Proof.
  intros Hset.
  destruct (ExpireSet_inv _ _ _ _ _ _ _ Hset) as (b & Hb & Hopen & _ & Hdb).
  unfold stored. rewrite Hdb, Hb; simpl. split; [done|]. by rewrite lookup_insert_eq.
Qed.

Lemma stored_agree (P : string → Prop) c c' key b :
  P key → agree_on P c c' → stored c key b → stored c' key b.
Proof.
  intros HP (Hc & _ & Hs) [Hopen Hkey]. split; [congruence|]. by rewrite Hs.
Qed.

(** ** Lookups on stored entries *)

Lemma Cache_Lookup_stored c table uid b :
  stored c (makeKey table uid) b →
  Cache_Lookup c table uid = ({| payload := Some b |}, None).
Proof.
  intros [Hopen Hkey]. unfold Cache_Lookup, buntdb.View, buntdb.tx_Get.
  by rewrite Hopen, Hkey.
Qed.

Lemma Cache_Lookup_agree c c' table uid :
  agree_on (λ key, key = makeKey table uid) c c' →
  Cache_Lookup c' table uid = Cache_Lookup c table uid.
Proof.
  intros (Hc & Hk & Hs). unfold Cache_Lookup, buntdb.View, buntdb.tx_Get, buntdb.expired.
  by rewrite Hc, Hk, Hs.
Qed.

Lemma Cache_List_stored c table uid b :
  stored c (makeKey table uid) b →
  (Cache_List c table).2 = None ∧ uid ∈ (Cache_List c table).1.
Proof.
  intros [Hopen Hkey]. unfold Cache_List, buntdb.View. rewrite Hopen; simpl.
  split; [done|]. apply list_elem_of_omap.
  exists (makeKey table uid, {| buntdb.val := b; buntdb.exat := None |}). split.
  - by apply elem_of_map_to_list.
  - simpl. apply strip_prefix_makeKey.
Qed.

(** A table nothing was written to lists no id. *)
Lemma Cache_List_unseen c table :
  buntdb.closed (Cache_db c) = false →
  (∀ key, is_Some (buntdb.keys (Cache_db c) !! key) →
          strip_prefix (table +:+ "-") key = None) →
  Cache_List c table = ([], None).
Proof.
  intros Hopen Hnone. unfold Cache_List, buntdb.View. rewrite Hopen. f_equal.
  destruct (omap _ _) as [|id ids] eqn:Hids; [done|].
  assert (id ∈ id :: ids) as Hin by left. rewrite <- Hids in Hin.
  apply list_elem_of_omap in Hin as ([key it] & Hin & Hstrip).
  apply elem_of_map_to_list in Hin.
  destruct (buntdb.expired _ it); [done|].
  rewrite Hnone in Hstrip; [done | eauto].
Qed.


(** ** The reverse index written by [onService] *)

Lemma index_writes_agree (P : string → Prop) suid pods c :
  (∀ p, ¬ P (makeKey (makeKey "pod-service" p) suid)) →
  agree_on P c (index_writes suid pods c).1.
Proof.
  intros HP. revert c. induction pods as [|p rest IH]; intros c; simpl.
  - apply agree_on_refl.
  - pose proof (Cache_Set_agree P c (makeKey "pod-service" (GetUID p)) suid
                  (ABool true) (HP _)) as Hagree.
    destruct (Cache_Set json_Marshal c _ suid (ABool true)) as [c' [e|]]; [done|].
    eapply agree_on_trans; [exact Hagree | apply IH].
Qed.

Lemma index_writes_keep_stored suid pods c c' key :
  index_writes suid pods c = (c', None) →
  stored c key (json_Marshal (ABool true)).1 →
  stored c' key (json_Marshal (ABool true)).1.
Proof.
  revert c. induction pods as [|p rest IH]; intros c; simpl; [by intros [= <-]|].
  destruct (Cache_Set json_Marshal c _ suid (ABool true)) as [c1 [e|]] eqn:Hset;
    [done|].
  intros Hrest Hst. apply (IH _ Hrest).
  destruct (decide (key = makeKey (makeKey "pod-service" (GetUID p)) suid)) as [->|Hne].
  - exact (Cache_Set_stored _ _ _ _ _ Hset).
  - eapply (stored_agree (λ k, k = key)); [done| |exact Hst].
    pose proof (Cache_Set_agree (λ k, k = key) c (makeKey "pod-service" (GetUID p))
                  suid (ABool true)) as Hagree.
    rewrite Hset in Hagree. apply Hagree. congruence.
Qed.

Lemma index_writes_stored suid pods c c' p :
  index_writes suid pods c = (c', None) → p ∈ pods →
  stored c' (makeKey (makeKey "pod-service" (GetUID p)) suid)
    (json_Marshal (ABool true)).1.
Proof.
  revert c. induction pods as [|q rest IH]; intros c Hw Hin; [by inversion Hin|].
  simpl in Hw.
  destruct (Cache_Set json_Marshal c _ suid (ABool true)) as [c1 [e|]] eqn:Hset;
    [done|].
  apply list_elem_of_In in Hin. destruct Hin as [->|Hin].
  - eapply index_writes_keep_stored; [exact Hw|].
    exact (Cache_Set_stored _ _ _ _ _ Hset).
  - apply (IH _ Hw). by apply list_elem_of_In.
Qed.


Context {K : Type} (kc : kubernetesClient K Cache).

(** C3: a service change for [s1] is processed (its event is pushed), and
    the pod resolution made for it returns a pod of uid [P1] and leaves
    the service record just saved in the store.  Later an event passes the
    gates of [onEvent], its involved object resolves to a pod of uid [P1],
    and the store in which the pod's services are then listed still has
    the two entries the service change left.  Then the event pushed has a
    pod map whose ["impacted_services"] list contains the name of [s1]. *)
Theorem impacted_services_of_pod (s1 : v1.Service) eventType
    (h0 h1 h : Handler K Cache) (P1 : string) (e : v1.Event)
    r k1 d1 u err1 k2 d2 addr err2 p p1 :
  (∀ b, json_Marshal (AService s1) = (b, None) →
        ∃ s', json_Unmarshal_Service b = (s', None) ∧ GetName s' = GetName s1) →
  onService kc s1 eventType h0 = (None, h1) → ch h1 ≠ ch h0 →
  p1 ∈ (pod_resolution kc s1 h0).2.1 → GetUID p1 = P1 →
  keeps_stored (λ key, key = makeKey "service" (GetUID s1))
    (Cache_Set json_Marshal (db h0) "service" (GetUID s1) (AService s1)).1
    (pod_resolution kc s1 h0).1.2 →
  watched_event e →
  db_Get (db h) eventCacheTable (GetUID e) = (r, None) → Exists r = false →
  getObject kc (client h) (db h) (v1.InvolvedObject e) = (k1, d1, (Some u, err1)) →
  getNodeAddress kc k1 d1 (v1.Host (v1.Source e)) = (k2, d2, (addr, err2)) →
  keeps_stored (reverse_index_entry (GetUID s1) P1) (db h1) d2 →
  ToLower (unstructured.Kind u) = "pod" →
  unstructuredToPod u = (Some p, None) → GetUID p = P1 →
  ∃ ev h' services,
    onEvent kc e h = (None, h') ∧ ch h' = ch h ++ [ev] ∧
    Pod ev !! "impacted_services" = Some (VStrings services) ∧
    GetName s1 ∈ services.
Proof.
  intros Hcodec Hsvc Hpush Hp1 Hp1uid Hkept Hw Hget Hex Hobj Haddr Hlater
    Hkind Hpod Huid.
  set (P := reverse_index_entry (GetUID s1) P1) in *.
  set (skey := makeKey "service" (GetUID s1)) in *.
  set (pkey := makeKey (makeKey "pod-service" P1) (GetUID s1)).
  assert (P skey) as HPs by (by left).
  assert (P pkey) as HPp by (by right).
  (* what the service change wrote *)
  pose proof (onService_pushed kc _ _ _ _ Hsvc Hpush) as Hproc.
  destruct (onService_process_ok kc _ _ _ _ _ Hproc)
    as (c1 & k & c2 & pods & c3 & c4 & ev1 & Hs1 & Hgp & Hs2 & Hiw & _ & _ & ->).
  simpl in Hs1, Hs2.
  destruct (ExpireSet_inv _ _ _ _ _ _ _ Hs1) as (b & Hb & _).
  destruct (Hcodec b Hb) as (s' & Hs' & Hname).
  unfold pod_resolution in Hp1, Hkept. rewrite Hs1 in Hp1, Hkept.
  simpl in Hp1, Hkept. rewrite Hgp in Hp1, Hkept. simpl in Hp1, Hkept.
  assert (stored c4 skey b) as Hsk.
  { assert (stored c1 skey b) as H1.
    { pose proof (Cache_Set_stored _ _ _ _ _ Hs1) as H1. by rewrite Hb in H1. }
    assert (stored c2 skey b) as H2 by (by apply Hkept).
    assert (stored c3 skey b) as H3.
    { eapply (stored_agree (λ key, key = skey)); [done| |exact H2].
      pose proof (Cache_Set_agree (λ key, key = skey) c2 "service-pods" (GetUID s1)
                    (APods pods)) as Ha.
      rewrite Hs2 in Ha. apply Ha. apply makeKey_service_pods. }
    eapply (stored_agree (λ key, key = skey)); [done| |exact H3].
    pose proof (index_writes_agree (λ key, key = skey) (GetUID s1) pods c3) as Ha.
    rewrite Hiw in Ha. apply Ha. intros q. apply makeKey_pod_service. set_solver. }
  assert (stored c4 pkey (json_Marshal (ABool true)).1) as Hpk.
  { subst pkey. rewrite <- Hp1uid. eapply index_writes_stored; [exact Hiw | exact Hp1]. }
  (* what is left of it when the event arrives *)
  simpl in Hlater.
  pose proof (Hlater _ _ HPs Hsk) as Hsk2.
  pose proof (Hlater _ _ HPp Hpk) as Hpk2.
  (* the event *)
  rewrite (onEvent_pass kc _ _ _ _ _ _ _ _ _ _ _ Hw Hget Hex Hobj Haddr).
  set (h2 := {| client := k2; ch := ch h; db := d2;
                logged := logged h ++ lines err1 ++ lines err2 |}).
  pose proof (makeL9Event_spec e (Some u) addr h2) as (_ & _ & Hlog).
  pose proof (makeL9Event_pod e u addr h2 p Hkind Hpod) as Hmap.
  destruct (makeL9Event e (Some u) addr h2) as [ev h3]; simpl in *.
  destruct Hlog as (_ & Hch & _). simpl in Hch.
  destruct (Cache_List_stored _ _ _ _ Hpk2) as [Herr Hin].
  destruct (Cache_List d2 (makeKey "pod-service" P1)) as [ids lerr] eqn:Hlist.
  simpl in Herr, Hin. subst lerr.
  destruct (@getPodServices_spec _ _ Cache_Cachier _ P1 h2 ids Hlist)
    as (h4 & Hgps & _).
  rewrite Huid, Hgps in Hmap. simpl in Hmap.
  eexists ev, _, _. split_and!; [reflexivity | by rewrite Hch | | ].
  - rewrite Hmap. apply lookup_insert_eq.
  - apply list_elem_of_omap. exists (GetUID s1). split; [done|].
    unfold resolved_name; simpl.
    rewrite (Cache_Lookup_stored _ _ _ _ Hsk2). unfold Unmarshal; simpl.
    rewrite Hs'. by rewrite Hname.
Qed.


(** ** The record the service gate reads *)

(** [onService] writes none of the entries in [P] when [P] holds no key
    of the tables it writes to, and the client keeps them. *)
Lemma onService_process_agree (P : string → Prop) s eventType suid
    (h : Handler K Cache) :
  client_keeps P kc →
  ¬ P (makeKey "service" suid) → ¬ P (makeKey "service-pods" suid) →
  (∀ q, ¬ P (makeKey (makeKey "pod-service" q) suid)) →
  agree_on P (db h) (db (onService_process kc s eventType suid h).2).
Proof.
  intros Hkeeps H1 H2 H3. unfold onService_process. run_monad. simpl.
  pose proof (Cache_Set_agree P (db h) "service" suid (AService s) H1) as Ha1.
  destruct (Cache_Set json_Marshal (db h) "service" suid (AService s))
    as [c1 [x|]]; [exact Ha1|]; simpl in *.
  destruct (Hkeeps (client h) c1) as (_ & _ & Hg). specialize (Hg s).
  destruct (getPods kc (client h) c1 s) as [[k c2] [pods err]]; simpl in *.
  assert (agree_on P (db h) c2) as Ha2 by (eapply agree_on_trans; eauto).
  destruct err as [x|]; [exact Ha2|]; simpl.
  pose proof (Cache_Set_agree P c2 "service-pods" suid (APods pods) H2) as Ha3.
  destruct (Cache_Set json_Marshal c2 "service-pods" suid (APods pods))
    as [c3 [x|]]; simpl in *; [eapply agree_on_trans; eauto|].
  rewrite (@onService_loop_spec _ _ Cache_Cachier); simpl.
  pose proof (index_writes_agree P suid pods c3 H3) as Ha4.
  assert (agree_on P (db h) (index_writes suid pods c3).1) as Ha5.
  { eapply agree_on_trans; [|exact Ha4]. eapply agree_on_trans; eauto. }
  destruct (index_writes suid pods c3) as [c4 [x|]]; simpl in *; [exact Ha5|].
  unfold makeL9ServiceEvent; run_monad; simpl. exact Ha5.
Qed.

Lemma onService_agree (P : string → Prop) s eventType (h : Handler K Cache) :
  client_keeps P kc →
  (∀ key, P key → ∃ uid, key = makeKey "events" uid) →
  agree_on P (db h) (db (onService kc s eventType h).2).
Proof.
  intros Hkeeps HP. unfold onService.
  case_bool_decide; [apply agree_on_refl|].
  destruct (decide (GetName s = "kubernetes")); [apply agree_on_refl|].
  run_monad; simpl.
  assert (agree_on P (db h) (db (onService_process kc s eventType (GetUID s) h).2)).
  { apply onService_process_agree; [done|..].
    - intros [uid Heq]%HP. revert Heq. apply makeKey_events. set_solver.
    - intros [uid Heq]%HP. revert Heq. apply makeKey_events. set_solver.
    - intros q [uid Heq]%HP. revert Heq. apply makeKey_pod_service. set_solver. }
  destruct (Cache_Lookup (db h) eventCacheTable (GetUID s)) as [r [x|]];
    [apply agree_on_refl|].
  destruct (Exists r); [|done].
  destruct (Unmarshal _ r) as [ex [x|]]; [apply agree_on_refl|].
  case_bool_decide; [apply agree_on_refl | done].
Qed.

Lemma deliver_change n s (h : Handler K Cache) :
  changed_service n = Some s →
  db (deliver kc n h) = db (onService kc s (eventType_of n) h).2.
Proof.
  intros Hn. destruct n as [[|s'|]|old [|s'|]|[|s'|]]; simplify_eq/=;
    unfold OnAdd, OnUpdate, OnDelete; run_monad;
    destruct (onService kc s _ h) as [[x|] h']; done.
Qed.

Lemma run_changes_agree uid ns (h : Handler K Cache) :
  client_keeps (λ key, key = makeKey "events" uid) kc →
  Forall (change_of uid) ns →
  agree_on (λ key, key = makeKey "events" uid) (db h) (db (run kc ns h)).
Proof.
  intros Hkeeps Hns. revert h. induction Hns as [|n ns (s & Hn & _) _ IH]; intros h.
  - apply agree_on_refl.
  - unfold run; simpl. eapply agree_on_trans; [|apply IH].
    rewrite (deliver_change _ _ _ Hn). apply onService_agree; [done|].
    intros key ->. eauto.
Qed.


Lemma versions_cons n s ns :
  changed_service n = Some s →
  versions (n :: ns) = GetResourceVersion s :: versions ns.
Proof. intros Hn. unfold versions; simpl. by rewrite Hn. Qed.

Lemma versions_elem n s ns :
  n ∈ ns → changed_service n = Some s → GetResourceVersion s ∈ versions ns.
Proof.
  intros Hin Hn. apply list_elem_of_omap. exists n. split; [done|]. by rewrite Hn.
Qed.

(** Changes of one service with increasing versions all pass the gate
    when the first of them does: [onService] never writes the record the
    gate reads. *)
Lemma increasing_changes_processed uid ns (h0 : Handler K Cache) r :
  client_keeps (λ key, key = makeKey "events" uid) kc →
  Forall (change_of uid) ns → increasing (versions ns) →
  Cache_Lookup (db h0) eventCacheTable uid = (r, None) →
  (Exists r = true →
     (Unmarshal (λ b, json_Unmarshal_L9Event b L9Event_zero) r).2 = None) →
  (∀ n s, head ns = Some n → changed_service n = Some s → ¬ already_processed s r) →
  ∀ pre n post s,
    ns = pre ++ n :: post → changed_service n = Some s →
    onService kc s (eventType_of n) (run kc pre h0) =
      onService_process kc s (eventType_of n) uid (run kc pre h0).
Proof.
  intros Hkeeps Hns Hinc Hget Hdec Hfirst pre n post s -> Hn.
  apply Forall_app in Hns as [Hpre Hn']. apply Forall_cons in Hn' as [Hs _].
  destruct Hs as (s' & Hn'' & Huid & Hw).
  assert (s' = s) as -> by congruence. subst uid.
  assert (Cache_Lookup (db (run kc pre h0)) eventCacheTable (GetUID s) = (r, None))
    as Hget'.
  { rewrite <- Hget. apply Cache_Lookup_agree. by apply run_changes_agree. }
  rewrite (@onService_gate _ _ Cache_Cachier _ kc s _ _ r Hw Hget' Hdec).
  rewrite decide_False; [done|]. intros [Hex Hle].
  destruct pre as [|n0 pre]; [by eapply Hfirst|].
  apply Forall_cons in Hpre as [(s0 & Hn0 & _ & _) _].
  apply (Hfirst n0 s0 eq_refl Hn0). split; [done|].
  change ((n0 :: pre) ++ n :: post) with (n0 :: (pre ++ n :: post)) in Hinc.
  rewrite (versions_cons _ _ _ Hn0) in Hinc.
  apply StronglySorted_inv in Hinc as [_ Hall].
  rewrite Forall_forall in Hall.
  assert (strict String.le (GetResourceVersion s0) (GetResourceVersion s)) as [Hlt _].
  { apply Hall. eapply versions_elem; [|exact Hn]. set_solver. }
  by etrans.
Qed.

(** Changes of one service that the record found does not make stale are
    all processed: the record is the same at each of them. *)
Lemma unrecorded_changes_processed uid ns (h0 : Handler K Cache) r :
  client_keeps (λ key, key = makeKey "events" uid) kc →
  Forall (change_of uid) ns →
  Cache_Lookup (db h0) eventCacheTable uid = (r, None) →
  (Exists r = true →
     (Unmarshal (λ b, json_Unmarshal_L9Event b L9Event_zero) r).2 = None) →
  (∀ n s, n ∈ ns → changed_service n = Some s → ¬ already_processed s r) →
  ∀ pre n post s,
    ns = pre ++ n :: post → changed_service n = Some s →
    onService kc s (eventType_of n) (run kc pre h0) =
      onService_process kc s (eventType_of n) uid (run kc pre h0).
Proof.
  intros Hkeeps Hns Hget Hdec Hfresh pre n post s -> Hn.
  apply Forall_app in Hns as [Hpre Hn']. apply Forall_cons in Hn' as [Hs _].
  destruct Hs as (s' & Hn'' & Huid & Hw).
  assert (s' = s) as -> by congruence. subst uid.
  assert (Cache_Lookup (db (run kc pre h0)) eventCacheTable (GetUID s) = (r, None))
    as Hget'.
  { rewrite <- Hget. apply Cache_Lookup_agree. by apply run_changes_agree. }
  rewrite (@onService_gate _ _ Cache_Cachier _ kc s _ _ r Hw Hget' Hdec).
  rewrite decide_False; [done|]. apply (Hfresh n s); [|done].
  apply elem_of_app. right. left.
Qed.

End StoreFacts.

(** * The handler's contract *)

Section HandlerContract.

Context {K DB : Type} `{!Cachier DB} `{!Codec}.
Context (kc : kubernetesClient K DB).

Implicit Types h : Handler K DB.

(** C10: [OnUpdate] does the same for any two old objects: same result,
    same store, same cluster, same events pushed, same log. *)
Theorem OnUpdate_old_object_unused oldObj oldObj' newObj h :
  OnUpdate kc oldObj newObj h = OnUpdate kc oldObj' newObj h.
Proof. reflexivity. Qed.

(** C6: for an event past the namespace filter and the deduplication
    gate, whatever the two resolutions return, errors included, [onEvent]
    returns [nil] and pushes exactly one event, carrying the event's uid
    and the address list that was returned; each error is logged; when the
    involved object was not resolved the event is the one built from the
    notification alone, with the fields taken from the object left
    empty. *)
Theorem onEvent_resolution_failures_not_fatal e h r k1 d1 obj err1 k2 d2 addr err2 :
  watched_event e →
  db_Get (db h) eventCacheTable (GetUID e) = (r, None) →
  Exists r = false →
  getObject kc (client h) (db h) (v1.InvolvedObject e) = (k1, d1, (obj, err1)) →
  getNodeAddress kc k1 d1 (v1.Host (v1.Source e)) = (k2, d2, (addr, err2)) →
  ∃ ev h' l,
    onEvent kc e h = (None, h') ∧
    ch h' = ch h ++ [ev] ∧
    logged h' = logged h ++ lines err1 ++ lines err2 ++ l ∧
    ID ev = GetUID e ∧ Address ev = addr ∧
    (obj = None → ev = base_event e addr ∧ l = []).
Proof.
  intros Hw Hget Hex Hobj Haddr.
  rewrite (onEvent_pass kc _ _ _ _ _ _ _ _ _ _ _ Hw Hget Hex Hobj Haddr).
  set (h2 := {| client := k2; ch := ch h; db := d2;
                logged := logged h ++ lines err1 ++ lines err2 |}).
  pose proof (makeL9Event_spec e obj addr h2) as (Hid & Hadd & Hlog).
  destruct (makeL9Event e obj addr h2) as [ev h3] eqn:Hmk;
    simpl in Hid, Hadd, Hlog.
  destruct Hlog as (_ & Hch & _ & l & Hl). simpl in Hch, Hl.
  exists ev, {| client := client h3; ch := ch h3 ++ [ev]; db := db h3;
                logged := logged h3 |}, l.
  split_and!; [done | by rewrite Hch | by rewrite Hl, <- !app_assoc | done..|].
  intros ->. rewrite makeL9Event_nil in Hmk. injection Hmk as <- <-.
  split; [done|].
  simpl in Hl. apply (inj (app (logged h ++ lines err1 ++ lines err2))).
  by rewrite <- Hl, app_nil_r.
Qed.

(** C5: when the reverse index lists no service id for the pod,
    [getPodServices] returns the empty list and no error and changes
    nothing; and when it lists ids, the result is, in order, the names of
    the ids that resolve (the lookup succeeds, finds a record, and the
    record decodes), still with no error: an id that does not resolve is
    left out. *)
Theorem getPodServices_skips_unresolved uid h :
  (db_List (db h) (makeKey "pod-service" uid) = ([], None) →
     getPodServices uid h = (([], None), h)) ∧
  (∀ serviceIds,
     db_List (db h) (makeKey "pod-service" uid) = (serviceIds, None) →
     ∃ h', getPodServices uid h
             = ((omap (resolved_name (db h)) serviceIds, None), h') ∧
           only_logs h h').
Proof.
  split.
  - intros Hlist. unfold getPodServices. run_monad. by rewrite Hlist.
  - intros ids Hlist. by apply getPodServices_spec.
Qed.

(** C1, amended: [onEvent] pushes at most one event per notification, and
    only when the lookup of the uid in the events table succeeded and found
    no record; and when the lookup finds a record, [onEvent] returns [nil]
    and changes nothing, so that any sequence of add, update and delete
    notifications carrying that uid leaves the handler as it was. *)
Theorem onEvent_first_notification_wins e h :
  (∀ res h', onEvent kc e h = (res, h') → ch h' ≠ ch h →
     (∃ r, db_Get (db h) eventCacheTable (GetUID e) = (r, None) ∧ Exists r = false) ∧
     ∃ ev, ch h' = ch h ++ [ev] ∧ ID ev = GetUID e) ∧
  (∀ r, db_Get (db h) eventCacheTable (GetUID e) = (r, None) → Exists r = true →
     onEvent kc e h = (None, h) ∧
     ∀ ns, Forall (about_event (GetUID e)) ns → run kc ns h = h).
Proof.
  split.
  - intros res h' Hrun Hch.
    by destruct (onEvent_push kc _ _ _ _ Hrun Hch) as (_ & ? & ?).
  - intros r Hget Hex. split; [by eapply onEvent_present|].
    intros ns Hns. by eapply run_present.
Qed.

End HandlerContract.

Section VersionOrder.

Lemma digit_spec a d : digit a = Some d → (N_of_ascii a = d + 48 ∧ d ≤ 9)%N.
Proof. unfold digit. case_decide; [|done]. intros [= <-]. lia. Qed.

Lemma number_of_bound v n :
  number_of v = Some n → (n < 10 ^ N.of_nat (String.length v))%N.
Proof.
  revert n. induction v as [|a v IH]; intros n; simpl.
  - intros [= <-]. lia.
  - destruct (digit a) as [d|] eqn:Hd; [|done].
    destruct (number_of v) as [n'|]; [|done]. intros [= <-].
    apply digit_spec in Hd as [_ Hd]. specialize (IH _ eq_refl).
    rewrite Nat2N.inj_succ, N.pow_succ_r'. nia.
Qed.

(** On numerals with the same number of digits the order of strings is the
    order of numbers. *)
Lemma compare_number_of v w n m :
  String.length v = String.length w →
  number_of v = Some n → number_of w = Some m →
  String.compare v w = (n ?= m)%N.
Proof.
  revert w n m. induction v as [|a v IH]; intros [|b w] n m Hlen; simpl in *;
    try discriminate.
  - by intros [= <-] [= <-].
  - destruct (digit a) as [da|] eqn:Hda; [|done].
    destruct (number_of v) as [n'|] eqn:Hn; [|done]. intros [= <-].
    destruct (digit b) as [db|] eqn:Hdb; [|done].
    destruct (number_of w) as [m'|] eqn:Hm; [|done]. intros [= <-].
    injection Hlen as Hlen.
    pose proof (number_of_bound _ _ Hn) as Hbn.
    pose proof (number_of_bound _ _ Hm) as Hbm. rewrite <- Hlen in Hbm.
    apply digit_spec in Hda as [Ha _]. apply digit_spec in Hdb as [Hb _].
    rewrite <- Hlen. set (P := (10 ^ N.of_nat (String.length v))%N) in *.
    unfold Ascii.compare. rewrite Ha, Hb.
    destruct (N.compare_spec (da + 48) (db + 48)) as [Heq|Hlt|Hgt].
    + assert (da = db) as -> by lia. rewrite (IH w n' m' Hlen eq_refl Hm).
      symmetry. destruct (N.compare_spec n' m').
      * apply N.compare_eq_iff. lia.
      * apply N.compare_lt_iff. lia.
      * apply N.compare_gt_iff. lia.
    + symmetry. apply N.compare_lt_iff. nia.
    + symmetry. apply N.compare_gt_iff. nia.
Qed.

Lemma same_width_le v w n m :
  same_width v w → number v = Some n → number w = Some m →
  (v ≤ w)%string ↔ (n ≤ m)%N.
Proof.
  intros (Hlen & _ & _). unfold number. do 2 (case_decide; [done|]).
  intros Hn Hm. unfold String.le, String.leb.
  rewrite (compare_number_of v w n m Hlen Hn Hm). unfold N.le.
  destruct (n ?= m)%N; simpl; split; intros; try done.
Qed.

Context `{!Codec}.

(** For a record whose version has the width of the incoming one, the
    comparison [onService] makes decides the order of the numbers. *)
Lemma already_processed_number s r :
  (Exists r = true → same_width (GetResourceVersion s) (recorded_version r)) →
  already_processed s r ↔ recorded_not_older s r.
Proof.
  intros Hwidth. unfold already_processed, recorded_not_older, version_le.
  fold (recorded_version r). split.
  - intros [Hex Hle]. split; [done|].
    destruct (Hwidth Hex) as (Hlen & [n Hn] & [m Hm]). exists n, m.
    split_and!; [done..|]. by apply (same_width_le _ _ n m (Hwidth Hex)).
  - intros (Hex & n & m & Hn & Hm & Hle). split; [done|].
    by apply (same_width_le _ _ n m (Hwidth Hex)).
Qed.

End VersionOrder.

Section ServiceGate.

Context `{!Codec}.

(** C2, amended: for a service outside the system namespaces and not
    named [kubernetes], whose lookup in the events table under its uid
    succeeds and whose record, if there is one, decodes and holds a
    version that is a numeral with as many digits as the incoming one,
    [onService] skips (returns [nil] after logging that the service was
    already processed, with nothing written or pushed) exactly when a
    record exists whose version is not older than the incoming resource
    version; otherwise it processes the service.  Hence, over the cache and
    with a client that leaves that record alone, in a sequence of such
    changes of one service with strictly increasing versions, every change
    is processed when no record is found, or when the record found is
    older than the first version and the versions have its number of
    digits: the handler itself never writes that record.  Versions of
    different widths are left out. *)
Theorem onService_skips_recorded_versions :
  (∀ (K DB : Type) (C : Cachier DB) (kc : kubernetesClient K DB)
     s eventType (h : Handler K DB) r,
     watched_service s →
     db_Get (db h) eventCacheTable (GetUID s) = (r, None) →
     (Exists r = true →
        (Unmarshal (λ b, json_Unmarshal_L9Event b L9Event_zero) r).2 = None) →
     (Exists r = true → same_width (GetResourceVersion s) (recorded_version r)) →
     (onService kc s eventType h = (None, with_log h [skip_line s])
        ↔ recorded_not_older s r) ∧
     (¬ recorded_not_older s r →
        onService kc s eventType h = onService_process kc s eventType (GetUID s) h)) ∧
  (∀ (K : Type) (kc : kubernetesClient K Cache) uid ns (h0 : Handler K Cache) r,
     client_keeps (λ key, key = makeKey "events" uid) kc →
     Forall (change_of uid) ns → StronglySorted version_lt (versions ns) →
     db_Get (db h0) eventCacheTable uid = (r, None) →
     (Exists r = true →
        (Unmarshal (λ b, json_Unmarshal_L9Event b L9Event_zero) r).2 = None) →
     (Exists r = true →
        Forall (λ v, same_width v (recorded_version r)) (versions ns)) →
     (∀ n s, head ns = Some n → changed_service n = Some s →
             ¬ recorded_not_older s r) →
     ∀ pre n post s,
       ns = pre ++ n :: post → changed_service n = Some s →
       onService kc s (eventType_of n) (run kc pre h0) =
         onService_process kc s (eventType_of n) uid (run kc pre h0)).
Proof.
  split.
  - intros K DB C kc s eventType h r Hw Hget Hdec Hwidth.
    rewrite <- (already_processed_number s r Hwidth).
    rewrite (onService_gate kc s eventType h r Hw Hget Hdec).
    destruct (decide (already_processed s r)) as [Hyes|Hno]; [done|].
    split; [|done]. split; [|done]. intros Hproc.
    destruct (onService_process_ok kc _ _ _ _ _ Hproc)
      as (? & ? & ? & ? & ? & ? & ev & _ & _ & _ & _ & _ & _ & Heq).
    apply (f_equal ch) in Heq. simpl in Heq.
    apply (f_equal length) in Heq. rewrite length_app in Heq. simpl in Heq. lia.
  - intros K kc uid ns h0 r Hkeeps Hns Hinc Hget Hdec Hwidth Hfirst.
    apply (unrecorded_changes_processed kc uid ns h0 r); [done..|].
    intros n s Hin Hn Hstale. pose proof Hstale as [Hex _].
    specialize (Hwidth Hex). rewrite Forall_forall in Hwidth.
    apply already_processed_number in Hstale;
      [|intros _; apply Hwidth; by eapply versions_elem].
    destruct ns as [|n0 rest]; [by inversion Hin|].
    apply Forall_cons in Hns as [(s0 & Hn0 & _ & _) _].
    apply (Hfirst n0 s0 eq_refl Hn0).
    apply list_elem_of_In in Hin. destruct Hin as [->|Hin]; [congruence|].
    apply list_elem_of_In in Hin.
    rewrite (versions_cons _ _ _ Hn0) in Hinc.
    apply StronglySorted_inv in Hinc as [_ Hall]. rewrite Forall_forall in Hall.
    destruct (Hall (GetResourceVersion s)) as (a & b & Ha & Hb & Hlt);
      [by eapply versions_elem|].
    destruct Hstale as (_ & b' & m & Hb' & Hm & Hle).
    assert (b' = b) as -> by congruence.
    split; [done|]. exists a, m. split_and!; [done..|lia].
Qed.

End ServiceGate.

Section LookupOutcomes.

Context {T : Type} (json_Unmarshal : string → T → T * option error).
Context (call_first : bool).
Context {K DB : Type} `{!Cachier DB} `{!Codec}.
Context (kc : kubernetesClient K DB).

(** C4, amended: [Cache.Get] tells a missing key from a stored one and
    from a failing store, but reports it through the error value
    [ErrNotFound] (next to the [missing] flag, set when the call is
    evaluated before the flag is read): a closed store gives
    [ErrDatabaseClosed], a stored key gives no store error and its payload
    to the decoder.  [onEvent] returns the error of a lookup that fails,
    pushing nothing, and pushes an event when the lookup returns no error
    and no record. *)
Theorem lookup_miss_and_failure c table uid (obj : T) (e : v1.Event)
    (h : Handler K DB) r :
  (buntdb.closed (Cache_db c) = true →
     Cache_Get json_Unmarshal call_first c table uid obj
       = (false, Some ErrDatabaseClosed, obj)) ∧
  (buntdb.closed (Cache_db c) = false →
     buntdb.keys (Cache_db c) !! makeKey table uid = None →
     Cache_Get json_Unmarshal call_first c table uid obj
       = (call_first, Some ErrNotFound, obj)) ∧
  (∀ b, stored c (makeKey table uid) b →
     Cache_Get json_Unmarshal call_first c table uid obj
       = (false, (json_Unmarshal b obj).2, (json_Unmarshal b obj).1)) ∧
  (watched_event e →
     (∀ err, db_Get (db h) eventCacheTable (GetUID e) = (r, Some err) →
             onEvent kc e h = (Some err, h)) ∧
     (db_Get (db h) eventCacheTable (GetUID e) = (r, None) → Exists r = false →
        ∃ ev h', onEvent kc e h = (None, h') ∧ ch h' = ch h ++ [ev])).
Proof.
  split_and!.
  - intros Hclosed. unfold Cache_Get, buntdb.View. rewrite Hclosed.
    by destruct call_first.
  - intros Hopen Hkey. unfold Cache_Get, buntdb.View, buntdb.tx_Get.
    rewrite Hopen, Hkey. by destruct call_first.
  - intros b [Hopen Hkey]. unfold Cache_Get, buntdb.View, buntdb.tx_Get.
    rewrite Hopen, Hkey; simpl. by destruct (json_Unmarshal b obj), call_first.
  - intros Hw. split.
    + intros err Hget. unfold onEvent. rewrite (unwatched_event _ Hw).
      run_monad. by rewrite Hget.
    + intros Hget Hex.
      destruct (getObject kc (client h) (db h) (v1.InvolvedObject e))
        as [[k1 d1] [o err1]] eqn:Hobj.
      destruct (getNodeAddress kc k1 d1 (v1.Host (v1.Source e)))
        as [[k2 d2] [addr err2]] eqn:Haddr.
      rewrite (onEvent_pass kc _ _ _ _ _ _ _ _ _ _ _ Hw Hget Hex Hobj Haddr).
      pose proof (makeL9Event_spec e o addr
        {| client := k2; ch := ch h; db := d2;
           logged := logged h ++ lines err1 ++ lines err2 |}) as (_ & _ & Hlog).
      destruct (makeL9Event _ _ _ _) as [ev h3]; simpl in Hlog.
      destruct Hlog as (_ & Hch & _). simpl in Hch.
      eexists ev, _. split; [reflexivity|]. simpl. by rewrite Hch.
Qed.

End LookupOutcomes.

(** * The contract on sample notifications *)

Section Samples.

#[local] Existing Instance Sample.codec.

(** Two notifications of one event, with nothing recording the first in
    between, are both pushed. *)
Lemma duplicate_notification_pushed_twice :
  map ID (ch (Sample.process
                [Added (EventObj Sample.e1);
                 Updated (EventObj Sample.e1) (EventObj Sample.e1)]
                Sample.handler))
    = ["E1"; "E1"].
Proof. vm_compute. reflexivity. Qed.

(** A service of a system namespace is skipped although the store holds
    no record of it. *)
Lemma system_service_skipped_without_record :
  onService Sample.cluster Sample.dns "addedService" Sample.handler = (None, Sample.handler) ∧
  Exists (db_Get (db Sample.handler) eventCacheTable (GetUID Sample.dns)).1 = false.
Proof. split; vm_compute; reflexivity. Qed.

(** [Cache.Get] on a key that is not there returns an error. *)
Lemma Cache_Get_miss_is_an_error :
  Cache_Get Sample.raw true Sample.store "events" "E1" ""
    = (true, Some ErrNotFound, "").
Proof. vm_compute. reflexivity. Qed.

(** [Set] under the table without a name fails with the error of the
    index creation and the [Get] right after it finds nothing; on a closed
    store [Set] fails as well. *)
Lemma Set_unnamed_table_then_Get_misses :
  Cache_Set Sample.strict Sample.store "" "E1" (Some "payload")
    = (Sample.store, Some ErrIndexExists) ∧
  Cache_Get Sample.raw true
    (Cache_Set Sample.strict Sample.store "" "E1" (Some "payload")).1 "" "E1" ""
    = (true, Some ErrNotFound, "") ∧
  Cache_Set Sample.strict Sample.store_closed "events" "E1" (Some "payload")
    = (Sample.store_closed, Some ErrDatabaseClosed).
Proof. split_and!; vm_compute; reflexivity. Qed.

(** [onService] compares the versions as strings: after a record of
    version 5, the change of version 10 is skipped. *)
Lemma version_10_skipped_after_5 :
  onService Sample.cluster (Sample.s1 "10") "updatedService"
    (Sample.handler_on Sample.store_U1)
    = (None, with_log (Sample.handler_on Sample.store_U1) [skip_line (Sample.s1 "10")]).
Proof. vm_compute. reflexivity. Qed.

Lemma ExpireSet_marshal_error_witness :
  Cache_ExpireSet Sample.strict Sample.store "events" "E1" None 60
    = (Sample.store, Some (errorString "json: unsupported value")).
Proof.
  apply (ExpireSet_marshal_error Sample.strict Sample.store "events" "E1" None 60 "").
  reflexivity.
Defined.

Lemma ExpireSet_registers_index_witness :
  "service" ∈
    (buntdb.tx_Indexes
       (Cache_db (Cache_ExpireSet Sample.strict Sample.store "service" "U1"
                    (Some "web") 60).1)).1 ∧
  ∃ c2,
    Cache_ExpireSet Sample.strict
      (Cache_writes Sample.strict
         [{| w_table := "events"; w_uid := "E1"; w_obj := Some "seen";
             w_expires := 0 |}]
         (Cache_ExpireSet Sample.strict Sample.store "service" "U1"
            (Some "web") 60).1)
      "service" "U2" (Some "api") 0 = (c2, None) ∧
    buntdb.idxs (Cache_db c2)
      = buntdb.idxs
          (Cache_db
             (Cache_writes Sample.strict
                [{| w_table := "events"; w_uid := "E1"; w_obj := Some "seen";
                    w_expires := 0 |}]
                (Cache_ExpireSet Sample.strict Sample.store "service" "U1"
                   (Some "web") 60).1)).
Proof.
  assert (Cache_ExpireSet Sample.strict Sample.store "service" "U1" (Some "web") 60
            = ((Cache_ExpireSet Sample.strict Sample.store "service" "U1"
                  (Some "web") 60).1, None)) as Hset
    by (vm_compute; reflexivity).
  pose proof (ExpireSet_registers_index Sample.strict Sample.store "service" "U1"
                (Some "web") 60 _ Hset) as (Hreg & _ & _ & _ & Hlater).
  split; [exact Hreg|].
  destruct (Hlater [{| w_table := "events"; w_uid := "E1"; w_obj := Some "seen";
                       w_expires := 0 |}] "U2" (Some "api") 0) as (_ & _ & Hwrite).
  apply Hwrite. reflexivity.
Defined.

Lemma Set_then_Get_witness :
  Cache_Get Sample.raw true
    (Cache_Set Sample.strict Sample.store "events" "E1" (Some "payload")).1
    "events" "E1" ""
    = (false, None, "payload").
Proof.
  refine (proj1 (proj2 (proj2 (Set_then_Get Sample.strict Sample.raw true Sample.store
                                 "events" "E1" (Some "payload") "payload" _) _ "" _))).
  - reflexivity.
  - vm_compute. reflexivity.
Defined.


Lemma client_keeps_sample (P : string → Prop) : client_keeps P Sample.cluster.
Proof.
  intros k c. split_and!; intros x; simpl; try apply agree_on_refl.
  destruct (decide (v1.Kind x = "Pod")); apply agree_on_refl.
Qed.

Lemma watched_e1 : watched_event Sample.e1.
Proof. unfold watched_event. compute_done. Qed.

Lemma onEvent_first_notification_wins_witness :
  Sample.process
    [Added (EventObj Sample.e1); Updated OtherObj (EventObj Sample.e1);
     Deleted (EventObj Sample.e1)]
    (Sample.handler_on Sample.store_E1)
    = Sample.handler_on Sample.store_E1.
Proof.
  refine (proj2 (proj2 (onEvent_first_notification_wins Sample.cluster Sample.e1
                          (Sample.handler_on Sample.store_E1))
                   {| payload := Some "v1" |} _ _) _ _).
  - vm_compute. reflexivity.
  - reflexivity.
  - repeat constructor.
Defined.

Lemma onService_skips_recorded_versions_witness :
  onService Sample.cluster (Sample.s1 "3") "updatedService"
    (Sample.handler_on Sample.store_U1)
    = (None, with_log (Sample.handler_on Sample.store_U1) [skip_line (Sample.s1 "3")]) ∧
  onService Sample.cluster (Sample.s1 "7") "updatedService"
    (run Sample.cluster [Added (ServiceObj (Sample.s1 "6"))]
       (Sample.handler_on Sample.store_U1))
    = onService_process Sample.cluster (Sample.s1 "7") "updatedService" "U1"
        (run Sample.cluster [Added (ServiceObj (Sample.s1 "6"))]
           (Sample.handler_on Sample.store_U1)).
Proof.
  pose proof onService_skips_recorded_versions as [Hgate Hseq].
  split.
  - apply (Hgate unit Cache _ Sample.cluster (Sample.s1 "3") "updatedService"
             (Sample.handler_on Sample.store_U1) {| payload := Some "5" |}).
    + unfold watched_service. compute_done.
    + vm_compute. reflexivity.
    + reflexivity.
    + intros _. split_and!; [reflexivity | by eexists | by eexists].
    + split; [reflexivity|]. exists 3%N, 5%N. split_and!; [reflexivity..|lia].
  - refine (Hseq unit Sample.cluster "U1"
              [Added (ServiceObj (Sample.s1 "6"));
               Updated OtherObj (ServiceObj (Sample.s1 "7"))]
              (Sample.handler_on Sample.store_U1) {| payload := Some "5" |}
              (client_keeps_sample _) _ _ _ _ _ _
              [Added (ServiceObj (Sample.s1 "6"))]
              (Updated OtherObj (ServiceObj (Sample.s1 "7"))) []
              (Sample.s1 "7") eq_refl eq_refl).
    + repeat constructor; eexists; (split; [reflexivity|]);
        (split; [reflexivity|]); unfold watched_service; compute_done.
    + repeat constructor. exists 6%N, 7%N. split_and!; [reflexivity..|lia].
    + vm_compute. reflexivity.
    + reflexivity.
    + intros _. repeat constructor; by eexists.
    + intros n s [= <-] [= <-] (_ & a & b & [= <-] & [= <-] & Hle). lia.
Defined.


Lemma impacted_services_of_pod_witness :
  ∃ ev h' services,
    onEvent Scenario.fickle Sample.e1 Scenario.after_S1 = (None, h') ∧
    ch h' = ch Scenario.after_S1 ++ [ev] ∧
    Pod ev !! "impacted_services" = Some (VStrings services) ∧
    "S1" ∈ services.
Proof.
  refine (impacted_services_of_pod Scenario.fickle (Sample.s1 "5") "addedService"
            Scenario.fresh Scenario.after_S1 Scenario.after_S1 "P1" Sample.e1
            {| payload := None |} true
            (Cache_at 2 (db Scenario.after_S1)) Scenario.web0 None true
            (Cache_at 3 (db Scenario.after_S1)) []
            (Some (errorString "node not found"))
            Scenario.web0_decoded (Sample.pod "web-0" "default" "P1")
            _ _ _ _ _ _ watched_e1 _ _ _ _ _ _ _ _).
  - intros b [= <-]. eexists. split; reflexivity.
  - vm_compute. reflexivity.
  - vm_compute. discriminate.
  - left.
  - reflexivity.
  - intros key b _ Hst. exact Hst.
  - vm_compute. reflexivity.
  - reflexivity.
  - vm_compute. reflexivity.
  - vm_compute. reflexivity.
  - intros key b _ Hst. exact Hst.
  - reflexivity.
  - reflexivity.
  - reflexivity.
Defined.

Lemma lookup_miss_and_failure_witness :
  Cache_Get Sample.raw false Sample.store "events" "E1" ""
    = (false, Some ErrNotFound, "") ∧
  onEvent Sample.cluster Sample.e1 (Sample.handler_on Sample.store_closed)
    = (Some ErrDatabaseClosed, Sample.handler_on Sample.store_closed).
Proof.
  pose proof (lookup_miss_and_failure Sample.raw false Sample.cluster Sample.store
                "events" "E1" "" Sample.e1 (Sample.handler_on Sample.store_closed)
                {| payload := None |}) as (_ & Hmiss & _ & Hevent).
  split.
  - apply Hmiss; reflexivity.
  - apply (Hevent watched_e1). reflexivity.
Defined.

Lemma getPodServices_skips_unresolved_witness :
  getPodServices "P1" Sample.handler = (([], None), Sample.handler).
Proof.
  refine (proj1 (getPodServices_skips_unresolved "P1" Sample.handler) _).
  vm_compute. reflexivity.
Defined.

Lemma onEvent_resolution_failures_not_fatal_witness :
  ∃ ev h' l,
    onEvent Sample.cluster Sample.e2 Sample.handler = (None, h') ∧
    ch h' = ch Sample.handler ++ [ev] ∧
    logged h' = logged Sample.handler
                  ++ lines (Some (errorString "object not found"))
                  ++ lines (Some (errorString "node not found")) ++ l ∧
    ID ev = "E2" ∧ Address ev = [] ∧
    (@None unstructured.Unstructured = None →
       ev = base_event Sample.e2 [] ∧ l = []).
Proof.
  refine (onEvent_resolution_failures_not_fatal Sample.cluster Sample.e2 Sample.handler
            {| payload := None |} tt Sample.store None
            (Some (errorString "object not found")) tt Sample.store []
            (Some (errorString "node not found")) _ _ _ _ _).
  - unfold watched_event. compute_done.
  - vm_compute. reflexivity.
  - reflexivity.
  - reflexivity.
  - reflexivity.
Defined.

End Samples.

(** * Further properties of the cache *)

Section MoreCacheWrites.

Context {V : Type} (json_Marshal : V → string * option error).

(** The cache a call of [ExpireSet] leaves. *)
Lemma ExpireSet_fst c table uid obj expires :
  (Cache_ExpireSet json_Marshal c table uid obj expires).1 =
    match json_Marshal obj with
    | (b, None) =>
        if buntdb.closed (Cache_db c) then c
        else if decide (buntdb.idxs (Cache_db c) !! table = None ∧ table = "") then c
        else {| Cache_db :=
                  buntdb.tx_Set
                    {| buntdb.closed := false;
                       buntdb.clock := buntdb.clock (Cache_db c);
                       buntdb.keys := buntdb.keys (Cache_db c);
                       buntdb.idxs := registered table (buntdb.idxs (Cache_db c)) |}
                    (makeKey table uid) b (ExpireSet_opts expires) |}
    | (_, Some _) => c
    end.
Proof.
  destruct (Cache_ExpireSet json_Marshal c table uid obj expires) as [c' [e|]] eqn:Hset.
  - rewrite (ExpireSet_error_unchanged _ _ _ _ _ _ _ _ Hset). simpl.
    destruct (json_Marshal obj) as [b [x|]] eqn:Hb; [done|].
    destruct (buntdb.closed (Cache_db c)) eqn:Hopen; [done|].
    rewrite decide_True; [done|].
    revert Hset. unfold Cache_ExpireSet, buntdb.Update. rewrite Hb, Hopen.
    unfold buntdb.tx_Indexes.
    destruct (indexExists table (map_to_list (buntdb.idxs (Cache_db c))).*1) eqn:Hex;
      [done|].
    assert (buntdb.idxs (Cache_db c) !! table = None) as Hnone.
    { apply eq_None_not_Some. intros Hs. apply indexExists_names in Hs. congruence. }
    unfold buntdb.tx_CreateIndex. rewrite Hnone.
    destruct (decide (table = "")); done.
  - destruct (ExpireSet_inv _ _ _ _ _ _ _ Hset) as (b & Hb & Hopen & Hname & Hdb).
    rewrite Hb, Hopen. simpl. rewrite decide_False by (intros [? ?]; by apply Hname).
    destruct c' as [d']; simpl in *. by rewrite Hdb.
Qed.

Lemma ExpireSet_snd_None c table uid obj expires :
  (Cache_ExpireSet json_Marshal c table uid obj expires).2 = None ↔
  (json_Marshal obj).2 = None ∧ buntdb.closed (Cache_db c) = false ∧
  ¬ (buntdb.idxs (Cache_db c) !! table = None ∧ table = "").
Proof.
  split.
  - destruct (Cache_ExpireSet json_Marshal c table uid obj expires) as [c' [e|]] eqn:Hset;
      [done|]. intros _.
    destruct (ExpireSet_inv _ _ _ _ _ _ _ Hset) as (b & Hb & Hopen & Hname & _).
    rewrite Hb. split_and!; [done..|]. intros [? ?]. by apply Hname.
  - intros (Hb & Hopen & Hname). unfold Cache_ExpireSet, buntdb.Update.
    destruct (json_Marshal obj) as [b err]; simpl in Hb; subst err.
    rewrite Hopen. unfold buntdb.tx_Indexes.
    destruct (indexExists table (map_to_list (buntdb.idxs (Cache_db c))).*1) eqn:Hex;
      [done|].
    assert (buntdb.idxs (Cache_db c) !! table = None) as Hnone.
    { apply eq_None_not_Some. intros Hs. apply indexExists_names in Hs. congruence. }
    unfold buntdb.tx_CreateIndex. rewrite Hnone.
    destruct (decide (table = "")); [tauto | done].
Qed.

(** X1: within one table, two ids give the same composite key only if they
    are the same id. *)
Theorem makeKey_uid_inj table uid uid' :
  makeKey table uid = makeKey table uid' → uid = uid'.
Proof.
  unfold makeKey. intros Heq.
  apply (inj (String.app table)) in Heq. by apply (inj (String.app "-")) in Heq.
Qed.

(** X2: the dash between table and id is the only separator: the id [b]
    of the table named [makeKey t a] has the key of the id [makeKey a b] of
    the table [t]. *)
Theorem makeKey_nested t a b :
  makeKey (makeKey t a) b = makeKey t (makeKey a b).
Proof. unfold makeKey. by rewrite !string_app_assoc. Qed.


Lemma well_indexed_no_empty_name c :
  well_indexed c → buntdb.idxs (Cache_db c) !! "" = None.
Proof.
  intros [Hix _]. apply eq_None_not_Some. intros [pattern Hp].
  by destruct (Hix _ _ Hp).
Qed.

(** X3: on a cache whose indexes are the tables' own, [ExpireSet] returns
    [nil] exactly when the value marshals, the store is open and the table
    has a name. *)
Theorem ExpireSet_succeeds_iff c table uid obj expires :
  well_indexed c →
  (Cache_ExpireSet json_Marshal c table uid obj expires).2 = None ↔
  (json_Marshal obj).2 = None ∧ buntdb.closed (Cache_db c) = false ∧ table ≠ "".
Proof.
  intros Hwi. rewrite ExpireSet_snd_None.
  pose proof (well_indexed_no_empty_name c Hwi) as Hno.
  split; intros (Hb & Hopen & Hname); (split_and!; [done..|]).
  - intros ->. by apply Hname.
  - intros [_ ?]. by apply Hname.
Qed.

(** X4: a call of [ExpireSet] that returns an error leaves the cache as it
    was, and the error is the marshalling error, [ErrDatabaseClosed] of a
    closed store, or [ErrIndexExists] for the table without a name. *)
Theorem ExpireSet_failure c table uid obj expires c' e :
  Cache_ExpireSet json_Marshal c table uid obj expires = (c', Some e) →
  c' = c ∧
  ((json_Marshal obj).2 = Some e ∨
   ((json_Marshal obj).2 = None ∧
    (buntdb.closed (Cache_db c) = true ∧ e = ErrDatabaseClosed ∨
     buntdb.closed (Cache_db c) = false ∧ table = "" ∧ e = ErrIndexExists))).
Proof.
  intros Hset. split; [by eapply ExpireSet_error_unchanged|].
  unfold Cache_ExpireSet, buntdb.Update in Hset.
  destruct (json_Marshal obj) as [b [x|]]; simpl; [simplify_eq; by left|].
  right. split; [done|].
  destruct (buntdb.closed (Cache_db c)); [simplify_eq; by left|]. right.
  unfold buntdb.tx_Indexes, buntdb.tx_CreateIndex in Hset.
  destruct (indexExists table (map_to_list (buntdb.idxs (Cache_db c))).*1) eqn:Hex;
    [done|].
  destruct (decide (table = "")); [by simplify_eq|].
  destruct (buntdb.idxs (Cache_db c) !! table) eqn:Hix; [|done].
  assert (indexExists table (map_to_list (buntdb.idxs (Cache_db c))).*1 = true)
    by (apply indexExists_names; eauto).
  congruence.
Qed.

Lemma registered_twice table ix : registered table (registered table ix) = registered table ix.
Proof.
  unfold registered at 2 3. destruct (ix !! table) eqn:Hix.
  - unfold registered. by rewrite Hix.
  - unfold registered. by rewrite lookup_insert_eq.
Qed.

(** X5: the cache is an upsert: when two writes to the same table and id
    both succeed, the cache is the one the second write alone gives; nothing
    of the first value or its expiry is left. *)
Theorem ExpireSet_last_write_wins c table uid obj1 expires1 c1 obj2 expires2 c2 :
  Cache_ExpireSet json_Marshal c table uid obj1 expires1 = (c1, None) →
  Cache_ExpireSet json_Marshal c1 table uid obj2 expires2 = (c2, None) →
  Cache_ExpireSet json_Marshal c table uid obj2 expires2 = (c2, None).
Proof.
  intros H1 H2.
  destruct (ExpireSet_inv _ _ _ _ _ _ _ H1) as (b1 & Hb1 & Hopen & Hname & Hdb1).
  destruct (ExpireSet_inv _ _ _ _ _ _ _ H2) as (b2 & Hb2 & _ & _ & Hdb2).
  assert ((Cache_ExpireSet json_Marshal c table uid obj2 expires2).2 = None) as Hok.
  { apply ExpireSet_snd_None. rewrite Hb2. split_and!; [done..|].
    intros [? ?]. by apply Hname. }
  pose proof (ExpireSet_fst c table uid obj2 expires2) as Hfst.
  rewrite Hb2, Hopen in Hfst. rewrite decide_False in Hfst
    by (intros [? ?]; by apply Hname).
  destruct (Cache_ExpireSet json_Marshal c table uid obj2 expires2) as [c3 err].
  simpl in *. subst err c3. f_equal. destruct c2 as [d2]. simpl in Hdb2. subst d2.
  f_equal. rewrite Hdb1. unfold buntdb.tx_Set; simpl.
  by rewrite insert_insert_eq, registered_twice.
Qed.

Lemma registered_lookup_ne t1 t2 ix :
  t1 ≠ t2 → registered t1 ix !! t2 = ix !! t2.
Proof.
  intros Hne. unfold registered. destruct (ix !! t1); [done|].
  by rewrite lookup_insert_ne.
Qed.

Lemma registered_comm t1 t2 ix :
  registered t1 (registered t2 ix) = registered t2 (registered t1 ix).
Proof.
  destruct (decide (t1 = t2)) as [->|Hne]; [done|].
  unfold registered at 1 3. rewrite !registered_lookup_ne by done.
  unfold registered.
  destruct (ix !! t1) eqn:H1, (ix !! t2) eqn:H2; rewrite ?H1, ?H2; try done.
  by apply insert_insert_ne.
Qed.

Lemma registered_unnamed t t' ix :
  ¬ (ix !! t' = None ∧ t' = "") →
  (registered t' ix !! t = None ∧ t = "") ↔ (ix !! t = None ∧ t = "").
Proof.
  intros Hok. split.
  - intros [Hr ->]. split; [|done]. unfold registered in Hr.
    destruct (ix !! t') eqn:Ht'; [done|].
    destruct (decide (t' = "")) as [->|Hn]; [tauto|].
    by rewrite lookup_insert_ne in Hr.
  - intros [Hi ->]. split; [|done].
    destruct (decide (t' = "")) as [->|Hn]; [tauto|].
    by rewrite registered_lookup_ne.
Qed.

(** X7: writes to two different keys commute: in either order they leave
    the same cache, whether each of them succeeds or fails. *)
Theorem ExpireSet_commute c t1 u1 o1 e1 t2 u2 o2 e2 :
  makeKey t1 u1 ≠ makeKey t2 u2 →
  (Cache_ExpireSet json_Marshal
     (Cache_ExpireSet json_Marshal c t1 u1 o1 e1).1 t2 u2 o2 e2).1
  = (Cache_ExpireSet json_Marshal
       (Cache_ExpireSet json_Marshal c t2 u2 o2 e2).1 t1 u1 o1 e1).1.
Proof.
  intros Hne. rewrite !ExpireSet_fst.
  destruct (json_Marshal o1) as [b1 [x1|]], (json_Marshal o2) as [b2 [x2|]];
    try done.
  destruct (buntdb.closed (Cache_db c)) eqn:Hopen; simpl; rewrite ?Hopen; [done|].
  pose proof (registered_unnamed t1 t2 (buntdb.idxs (Cache_db c))) as E1.
  pose proof (registered_unnamed t2 t1 (buntdb.idxs (Cache_db c))) as E2.
  destruct (decide (buntdb.idxs (Cache_db c) !! t1 = None ∧ t1 = "")) as [H1|H1];
    destruct (decide (buntdb.idxs (Cache_db c) !! t2 = None ∧ t2 = "")) as [H2|H2];
    simpl; rewrite ?Hopen; repeat case_decide; try tauto.
  f_equal. unfold buntdb.tx_Set; simpl.
  f_equal; [by apply insert_insert_ne | apply registered_comm].
Qed.

Lemma Duration_seconds_exact expires :
  0 < expires ≤ 9223372036 → Duration_seconds expires = expires * 1000000000.
Proof.
  intros Hr. unfold Duration_seconds, wrap64, Second.
  rewrite (Z.mod_small (expires + 2 ^ 63)) by lia.
  rewrite Z.mod_small by lia. lia.
Qed.

Lemma Duration_seconds_wraps expires :
  9223372036 < expires ≤ 18446744073 →
  Duration_seconds expires = expires * 1000000000 - 2 ^ 64.
Proof.
  intros Hr. unfold Duration_seconds, wrap64, Second.
  rewrite (Z.mod_small (expires + 2 ^ 63)) by lia.
  replace (expires + 2 ^ 63 - 2 ^ 63) with expires by lia.
  rewrite <- (Z.mod_unique (expires * 1000000000 + 2 ^ 63) (2 ^ 64) 1
                (expires * 1000000000 + 2 ^ 63 - 2 ^ 64)); lia.
Qed.

Lemma ExpireSet_well_indexed c table uid obj expires :
  well_indexed c →
  well_indexed (Cache_ExpireSet json_Marshal c table uid obj expires).1.
Proof.
  intros [Hix Hkeys].
  destruct (Cache_ExpireSet json_Marshal c table uid obj expires) as [c' [e|]] eqn:Hset.
  - by rewrite (ExpireSet_error_unchanged _ _ _ _ _ _ _ _ Hset).
  - destruct (ExpireSet_inv _ _ _ _ _ _ _ Hset) as (b & Hb & Hopen & Hname & Hdb).
    simpl. unfold well_indexed. rewrite Hdb; simpl. unfold registered. split.
    + intros name pattern.
      destruct (buntdb.idxs (Cache_db c) !! table) eqn:Ht; [apply Hix|].
      destruct (decide (name = table)) as [->|Hne].
      * rewrite lookup_insert_eq. intros [= <-]. split; [by apply Hname | done].
      * rewrite lookup_insert_ne by done. apply Hix.
    + intros key.
      destruct (decide (key = makeKey table uid)) as [->|Hne].
      * intros _. exists table, uid. split; [done|].
        destruct (buntdb.idxs (Cache_db c) !! table) eqn:Ht; [by rewrite Ht|].
        rewrite lookup_insert_eq. eauto.
      * rewrite lookup_insert_ne by done. intros Hk.
        destruct (Hkeys key Hk) as (t & u & -> & [p Hp]). exists t, u. split; [done|].
        destruct (buntdb.idxs (Cache_db c) !! table) eqn:Ht; [eauto|].
        destruct (decide (t = table)) as [->|Hnt]; [congruence|].
        rewrite lookup_insert_ne by done. eauto.
Qed.

Lemma well_indexed_new now : well_indexed (newCache now).1.
Proof.
  split; simpl.
  - intros name pattern. by rewrite lookup_empty.
  - intros key. rewrite lookup_empty. by intros [? ?].
Qed.

(** X10: whatever is written to a new cache, and whatever the writes
    return, every index is the named prefix index of its table and every
    key belongs to a table that has its index. *)
Theorem Cache_writes_well_indexed (ws : list (write V)) now :
  well_indexed (Cache_writes json_Marshal ws (newCache now).1).
Proof.
  pose proof (well_indexed_new now) as Hnew.
  revert Hnew. generalize (newCache now).1. unfold Cache_writes.
  induction ws as [|w ws IH]; intros c Hc; simpl; [done|].
  apply IH. by apply ExpireSet_well_indexed.
Qed.

End MoreCacheWrites.

Section MoreCacheReads.

Context {V : Type} (json_Marshal : V → string * option error).
Context {T : Type} (json_Unmarshal : string → T → T * option error).
Context (call_first : bool).

(** X6: a write changes what [Get] returns for no other key. *)
Theorem ExpireSet_other_key_Get c table uid obj expires table' uid' (target : T) :
  makeKey table uid ≠ makeKey table' uid' →
  Cache_Get json_Unmarshal call_first
    (Cache_ExpireSet json_Marshal c table uid obj expires).1 table' uid' target
    = Cache_Get json_Unmarshal call_first c table' uid' target.
Proof.
  intros Hne. rewrite ExpireSet_fst.
  destruct (json_Marshal obj) as [b [x|]]; [done|].
  destruct (buntdb.closed (Cache_db c)) eqn:Hopen; [done|].
  destruct (decide _); [done|].
  unfold Cache_Get, buntdb.View, buntdb.tx_Get, buntdb.expired; simpl.
  by rewrite Hopen, lookup_insert_ne.
Qed.

(** X8: with an expiry of [expires] seconds that fits the duration type, a
    successful [ExpireSet] stores the payload with the expiry instant
    [expires] seconds after the store's clock; [Get] finds the key as long
    as the clock has not passed that instant and reports [ErrNotFound] once
    it has. *)
Theorem ExpireSet_ttl c table uid obj expires c' b (target : T) :
  0 < expires ≤ 9223372036 →
  json_Marshal obj = (b, None) →
  Cache_ExpireSet json_Marshal c table uid obj expires = (c', None) →
  let exat := buntdb.clock (Cache_db c) + expires * 1000000000 in
  buntdb.keys (Cache_db c') !! makeKey table uid
    = Some {| buntdb.val := b; buntdb.exat := Some exat |} ∧
  ∀ now,
    (now ≤ exat →
       Cache_Get json_Unmarshal call_first (Cache_at now c') table uid target
         = (false, (json_Unmarshal b target).2, (json_Unmarshal b target).1)) ∧
    (exat < now →
       Cache_Get json_Unmarshal call_first (Cache_at now c') table uid target
         = (call_first, Some ErrNotFound, target)).
Proof.
  intros Hr Hb Hset exat.
  destruct (ExpireSet_inv _ _ _ _ _ _ _ Hset) as (b' & Hb' & Hopen & _ & Hdb).
  assert (b' = b) as -> by congruence.
  assert (buntdb.keys (Cache_db c') !! makeKey table uid
            = Some {| buntdb.val := b; buntdb.exat := Some exat |}) as Hkey.
  { rewrite Hdb. unfold buntdb.tx_Set, ExpireSet_opts; simpl.
    rewrite lookup_insert_eq, bool_decide_eq_true_2 by lia. simpl.
    by rewrite Duration_seconds_exact. }
  split; [done|]. intros now.
  assert (buntdb.closed (Cache_db c') = false) as Hopen' by (by rewrite Hdb).
  unfold Cache_Get, Cache_at, buntdb.View, buntdb.tx_Get, buntdb.expired; simpl.
  rewrite Hopen', Hkey; simpl. split; intros Hnow.
  - rewrite bool_decide_eq_false_2 by lia.
    by destruct (json_Unmarshal b target), call_first.
  - rewrite bool_decide_eq_true_2 by lia. by destruct call_first.
Qed.

(** X9: the expiry in seconds is multiplied into nanoseconds in 64 bits.
    From 9223372037 seconds on the product wraps to a negative duration: the
    entry is stored with an expiry instant before the clock, and a [Get]
    right after the successful [ExpireSet] reports [ErrNotFound]. *)
Theorem ExpireSet_ttl_overflow c table uid obj expires c' (target : T) :
  9223372036 < expires ≤ 18446744073 →
  Cache_ExpireSet json_Marshal c table uid obj expires = (c', None) →
  buntdb.TTL (ExpireSet_opts expires) < 0 ∧
  Cache_Get json_Unmarshal call_first c' table uid target
    = (call_first, Some ErrNotFound, target).
Proof.
  intros Hr Hset.
  destruct (ExpireSet_inv _ _ _ _ _ _ _ Hset) as (b & Hb & Hopen & _ & Hdb).
  assert (buntdb.TTL (ExpireSet_opts expires) = expires * 1000000000 - 2 ^ 64) as Httl.
  { unfold ExpireSet_opts. rewrite bool_decide_eq_true_2 by lia. simpl.
    by apply Duration_seconds_wraps. }
  split; [lia|].
  unfold Cache_Get, buntdb.View, buntdb.tx_Get, buntdb.expired.
  rewrite Hdb; simpl. rewrite lookup_insert_eq. simpl.
  replace (buntdb.Expires (ExpireSet_opts expires)) with true
    by (unfold ExpireSet_opts; by rewrite bool_decide_eq_true_2 by lia).
  simpl. rewrite bool_decide_eq_true_2 by lia. by destruct call_first.
Qed.

End MoreCacheReads.

(** * Further properties of the handler *)

Section MoreHandlerFacts.

Context {K DB : Type} `{!Cachier DB} `{!Codec}.
Context (kc : kubernetesClient K DB).

Implicit Types h : Handler K DB.

Lemma not_watched_service s :
  ¬ watched_service s →
  bool_decide (GetNamespace s ∈ ["kube-system"; "kubernetes-dashboard"]) = true ∨
  GetName s = "kubernetes".
Proof.
  intros Hn. unfold watched_service in Hn. case_bool_decide; [by left|]. right.
  destruct (decide (GetName s = "kubernetes")); [done|]. exfalso. by apply Hn.
Qed.

Lemma onEvent_ignored e h : ¬ watched_event e → onEvent kc e h = (None, h).
Proof.
  intros Hn. unfold onEvent. rewrite bool_decide_eq_true_2; [done|].
  unfold watched_event in Hn.
  by destruct (decide (GetNamespace e ∈
                 ["kube-system"; "kubernetes"; "kubernetes-dashboard"])).
Qed.

Lemma onService_ignored s eventType h :
  ¬ watched_service s → onService kc s eventType h = (None, h).
Proof.
  intros Hn. unfold onService.
  destruct (not_watched_service s Hn) as [-> | Hname]; [done|].
  case_bool_decide; [done|]. by rewrite decide_True.
Qed.

(** X11: a notification for an event of the namespaces [kube-system],
    [kubernetes] or [kubernetes-dashboard], for a service of [kube-system]
    or [kubernetes-dashboard] or named [kubernetes], or for an object of
    another type leaves the handler as it was: no lookup, no call of the
    client, nothing logged or pushed. *)
Theorem ignored_notification_noop n h :
  ignored (object_of n) → deliver kc n h = h.
Proof.
  intros Hig.
  destruct n as [[e|s|]|old [e|s|]|[e|s|]]; simpl in Hig;
    unfold deliver, OnAdd, OnUpdate, OnDelete; run_monad;
    rewrite ?(onEvent_ignored _ _ Hig), ?(onService_ignored _ _ _ Hig); done.
Qed.

Lemma onEvent_lookup_error e h r err :
  watched_event e →
  db_Get (db h) eventCacheTable (GetUID e) = (r, Some err) →
  onEvent kc e h = (Some err, h).
Proof.
  intros Hw Hget. unfold onEvent. rewrite (unwatched_event _ Hw).
  run_monad. by rewrite Hget.
Qed.

Lemma onService_lookup_error s eventType h r err :
  watched_service s →
  db_Get (db h) eventCacheTable (GetUID s) = (r, Some err) →
  onService kc s eventType h = (Some err, h).
Proof.
  intros Hw Hget. unfold onService. rewrite (unwatched_service _ Hw).
  destruct Hw as [_ Hname]. rewrite decide_False by done.
  run_monad. by rewrite Hget.
Qed.

(** X12: when the lookup in the events table fails for a watched event or
    service, each of the three callbacks logs that error and does nothing
    else: no call of the client, no write, nothing pushed. *)
Theorem lookup_error_logged n h r err :
  watched (object_of n) →
  db_Get (db h) eventCacheTable (lookup_uid (object_of n)) = (r, Some err) →
  deliver kc n h = with_log h [Error err].
Proof.
  intros Hw Hget.
  destruct n as [[e|s|]|old [e|s|]|[e|s|]]; simpl in Hw, Hget; try done;
    unfold deliver, OnAdd, OnUpdate, OnDelete; run_monad;
    rewrite ?(onEvent_lookup_error _ _ _ _ Hw Hget),
            ?(onService_lookup_error _ _ _ _ _ Hw Hget); done.
Qed.


Lemma appends_refl uid h : appends uid h h.
Proof.
  exists [], []. rewrite !app_nil_r. split_and!; [done | simpl; lia | constructor | done].
Qed.

Lemma appends_log uid h h' l :
  appends uid h h' → appends uid h (with_log h' l).
Proof.
  intros (evs & l0 & Hch & Hlen & Hid & Hlog). exists evs, (l0 ++ l).
  simpl. rewrite Hlog, app_assoc. by split_and!.
Qed.

Lemma onEvent_appends e h : appends (GetUID e) h (onEvent kc e h).2.
Proof.
  destruct (decide (watched_event e)) as [Hw|Hw];
    [|rewrite onEvent_ignored by done; apply appends_refl].
  destruct (db_Get (db h) eventCacheTable (GetUID e)) as [r [x|]] eqn:Hget;
    [erewrite onEvent_lookup_error by done; apply appends_refl|].
  destruct (Exists r) eqn:Hex;
    [erewrite onEvent_present by done; apply appends_refl|].
  destruct (getObject kc (client h) (db h) (v1.InvolvedObject e))
    as [[k1 d1] [obj err1]] eqn:Hobj.
  destruct (getNodeAddress kc k1 d1 (v1.Host (v1.Source e)))
    as [[k2 d2] [addr err2]] eqn:Haddr.
  rewrite (onEvent_pass kc _ _ _ _ _ _ _ _ _ _ _ Hw Hget Hex Hobj Haddr).
  pose proof (makeL9Event_spec e obj addr
    {| client := k2; ch := ch h; db := d2;
       logged := logged h ++ lines err1 ++ lines err2 |}) as (Hid & _ & Hlog).
  destruct (makeL9Event _ _ _ _) as [ev h3]; simpl in *.
  destruct Hlog as (_ & Hch & _ & l & Hl). simpl in Hch, Hl.
  exists [ev], (lines err1 ++ lines err2 ++ l). simpl.
  rewrite Hch, Hl, <- !app_assoc.
  split_and!; [done | simpl; lia | by constructor | done].
Qed.

Lemma onService_appends s eventType h :
  appends (GetUID s +:+ "-" +:+ GetResourceVersion s) h (onService kc s eventType h).2.
Proof.
  assert (appends (GetUID s +:+ "-" +:+ GetResourceVersion s) h
            (onService_process kc s eventType (GetUID s) h).2) as Hproc.
  { destruct (onService_process kc s eventType (GetUID s) h) as [[e|] h'] eqn:Hp.
    - destruct (onService_process_error kc _ _ _ _ _ _ Hp) as [Hch Hlog].
      exists [], []. rewrite !app_nil_r. simpl.
      split_and!; [done | lia | constructor | done].
    - destruct (onService_process_ok kc _ _ _ _ _ Hp)
        as (? & ? & ? & ? & ? & ? & ev & _ & _ & _ & _ & _ & Hid & ->).
      exists [ev], []. simpl. rewrite app_nil_r.
      split_and!; [done | lia | by constructor | done]. }
  unfold onService. case_bool_decide; [apply appends_refl|].
  destruct (decide (GetName s = "kubernetes")); [apply appends_refl|].
  run_monad. destruct (db_Get (db h) eventCacheTable (GetUID s)) as [r [x|]];
    [apply appends_refl|].
  destruct (Exists r); [|done].
  destruct (Unmarshal _ r) as [ex [x|]]; [apply appends_refl|].
  case_bool_decide; [|done]. simpl.
  apply (appends_log _ h h), appends_refl.
Qed.

Lemma logged_appends uid h (r : option error * Handler K DB) :
  appends uid h r.2 →
  appends uid h (let '(a, h') := r in log_error a h').2.
Proof.
  destruct r as [[x|] h']; simpl; [|done]. intros Ha.
  by apply (appends_log _ h h' [Error x]).
Qed.

Lemma deliver_appends_uid n h uid :
  identity (object_of n) = Some uid → appends uid h (deliver kc n h).
Proof.
  intros Hid.
  destruct n as [[e|s|]|old [e|s|]|[e|s|]]; simpl in Hid; simplify_eq;
    unfold deliver, OnAdd, OnUpdate, OnDelete, mbind, M_bind;
    apply logged_appends; first [apply onEvent_appends | apply onService_appends].
Qed.

(** X13: a notification removes nothing from the channel or the log and
    pushes at most one event; the event it pushes carries the identity of
    the notification's object: the uid of an event, the uid and resource
    version of a service. *)
Theorem deliver_appends n h :
  ∃ evs l,
    ch (deliver kc n h) = ch h ++ evs ∧ (length evs ≤ 1)%nat ∧
    Forall (λ ev, identity (object_of n) = Some (ID ev)) evs ∧
    logged (deliver kc n h) = logged h ++ l.
Proof.
  destruct (identity (object_of n)) as [uid|] eqn:Hid.
  - destruct (deliver_appends_uid n h uid Hid) as (evs & l & Hch & Hlen & Hall & Hlog).
    exists evs, l. split_and!; try done.
    eapply Forall_impl; [exact Hall|]. simpl. by intros ev ->.
  - exists [], []. rewrite !app_nil_r.
    destruct n as [[e|s|]|old [e|s|]|[e|s|]]; simpl in Hid; try done;
      (split_and!; [done | simpl; lia | constructor | done]).
Qed.

(** X14: after any run of notifications the channel holds what it held
    before, followed by at most one event per notification, each carrying
    the identity of the object of one of the notifications. *)
Theorem run_appends ns h :
  ∃ evs,
    ch (run kc ns h) = ch h ++ evs ∧ (length evs ≤ length ns)%nat ∧
    Forall (λ ev, ∃ n, n ∈ ns ∧ identity (object_of n) = Some (ID ev)) evs.
Proof.
  revert h. induction ns as [|n ns IH]; intros h.
  - exists []. rewrite app_nil_r. split_and!; [done | simpl; lia | constructor].
  - unfold run; simpl. fold (run kc ns (deliver kc n h)).
    destruct (IH (deliver kc n h)) as (evs2 & Hch2 & Hlen2 & Hall2).
    destruct (deliver_appends n h) as (evs1 & l & Hch1 & Hlen1 & Hall1 & _).
    exists (evs1 ++ evs2). rewrite Hch2, Hch1, <- app_assoc. split; [done|].
    split; [rewrite length_app; simpl; lia|].
    apply Forall_app. split.
    + eapply Forall_impl; [exact Hall1|]. intros ev Hev. exists n. split; [left|done].
    + eapply Forall_impl; [exact Hall2|]. intros ev (m & Hm & Hev).
      exists m. split; [by right|done].
Qed.


Lemma podMap_loop_dom pods (m : gmap string value) :
  dom (podMap_loop pods m) = dom m ∪ list_to_set (GetName <$> pods).
Proof.
  revert m. induction pods as [|p rest IH]; intros m; simpl.
  - by rewrite (right_id_L ∅ (∪)).
  - destruct (json_Marshal (AMap (miniPodInfo p))) as [b [e|]];
      rewrite IH, dom_insert_L;
      by rewrite (comm_L (∪) {[GetName p]} (dom m)), (assoc_L (∪)).
Qed.

Lemma podMap_loop_other pods (m : gmap string value) name :
  name ∉ GetName <$> pods → podMap_loop pods m !! name = m !! name.
Proof.
  revert m. induction pods as [|p rest IH]; intros m Hnot; simpl; [done|].
  rewrite fmap_cons, not_elem_of_cons in Hnot. destruct Hnot as [Hne Hrest].
  destruct (json_Marshal (AMap (miniPodInfo p))) as [b [e|]];
    rewrite IH by done; by rewrite lookup_insert_ne.
Qed.

(** X15: a service event is not failed by a pod whose information does not
    serialise: when the pods have different names, the pod map of
    [makeL9ServiceEvent] holds, under the name of each pod, the serialised
    information of that pod or else the text of the error. *)
Theorem podMap_loop_entry pods p :
  NoDup (GetName <$> pods) → p ∈ pods →
  podMap_loop pods ∅ !! GetName p = Some (pod_entry p).
Proof.
  generalize (∅ : gmap string value).
  induction pods as [|q rest IH]; intros m Hnd Hin; [by inversion Hin|].
  rewrite fmap_cons in Hnd. apply NoDup_cons in Hnd as [Hq Hnd].
  apply list_elem_of_In in Hin. destruct Hin as [->|Hin]; simpl.
  - unfold pod_entry. destruct (json_Marshal (AMap (miniPodInfo p))) as [b [e|]];
      rewrite podMap_loop_other by done; by rewrite lookup_insert_eq.
  - destruct (json_Marshal (AMap (miniPodInfo q))) as [b [e|]];
      apply IH; try done; by apply list_elem_of_In.
Qed.

(** X16: when [onService] returns [nil] and has pushed an event, the event
    is the one of the service: identity uid-version, component the service
    name, message and reason the tag of the callback, no host, address or
    reference other than the resource version, the labels and annotations of
    the service, the time of the clock, and one pod-map entry per name of the
    pods the client returned. *)
Theorem onService_event s eventType h h' :
  onService kc s eventType h = (None, h') → ch h' ≠ ch h →
  ∃ ev pods,
    (getPods kc (client h)
       (db_Set (db h) "service" (GetUID s) (AService s)).1 s).2 = (pods, None) ∧
    ch h' = ch h ++ [ev] ∧
    ID ev = GetUID s +:+ "-" +:+ GetResourceVersion s ∧
    Timestamp ev = time_Now kc (client h') ∧
    Component ev = GetName s ∧ Host ev = "" ∧
    Message ev = eventType ∧ Reason ev = eventType ∧
    Namespace ev = GetNamespace s ∧
    ReferenceUID ev = "" ∧ ReferenceNamespace ev = "" ∧ ReferenceName ev = "" ∧
    ReferenceKind ev = "" ∧ ReferenceVersion ev = GetResourceVersion s ∧
    ObjectUid ev = GetUID s ∧ Labels ev = GetLabels s ∧
    Annotations ev = GetAnnotations s ∧ Address ev = [] ∧
    dom (Pod ev) = list_to_set (GetName <$> pods).
Proof.
  intros Hrun Hpush. pose proof (onService_pushed kc _ _ _ _ Hrun Hpush) as Hproc.
  clear Hrun Hpush. revert Hproc. unfold onService_process. run_monad.
  destruct (db_Set (db h) "service" (GetUID s) (AService s)) as [d1 [e|]]; [done|].
  simpl.
  destruct (getPods kc (client h) d1 s) as [[k d2] [pods [e|]]] eqn:Hgp; [done|].
  simpl.
  destruct (db_Set d2 "service-pods" (GetUID s) (APods pods)) as [d3 [e|]]; [done|].
  rewrite onService_loop_spec; simpl.
  destruct (index_writes (GetUID s) pods d3) as [d4 [e|]]; [done|]; simpl.
  unfold makeL9ServiceEvent; run_monad; simpl. intros [= <-].
  eexists _, pods. simpl.
  split_and!; try reflexivity.
  simpl. by rewrite podMap_loop_dom, dom_empty_L, (left_id_L ∅ (∪)).
Qed.


(** X17: for an involved object that is resolved and is not a pod (its
    kind, in lower case, is not [pod]), the event carries the namespace,
    kind, uid, labels and annotations of the object and an empty pod map;
    nothing is read from the store and nothing is logged. *)
Theorem makeL9Event_not_pod e u address h :
  ToLower (unstructured.Kind u) ≠ "pod" →
  makeL9Event e (Some u) address h = (object_event e u address ∅, h).
Proof.
  intros Hkind. unfold makeL9Event, addPodDetails. run_monad.
  by rewrite decide_True.
Qed.

(** X18: when the involved object is a pod but cannot be converted, the
    event is still made, with the fields of the object and an empty pod
    map, and the conversion error is logged. *)
Theorem makeL9Event_conversion_error e u address h p err :
  ToLower (unstructured.Kind u) = "pod" →
  unstructuredToPod u = (p, Some err) →
  makeL9Event e (Some u) address h
    = (object_event e u address ∅, with_log h [Error err]).
Proof.
  intros Hkind Hpod. unfold makeL9Event, addPodDetails. run_monad.
  rewrite decide_False by (by intros ?). rewrite Hpod. by destruct p.
Qed.

(** X19: when the involved object is a pod and the reverse index cannot be
    listed, the event is still made: its pod map is the pod's information
    with an empty ["impacted_services"], and the error of the listing is
    logged. *)
Theorem makeL9Event_list_error e u address h p ids err :
  ToLower (unstructured.Kind u) = "pod" →
  unstructuredToPod u = (Some p, None) →
  db_List (db h) (makeKey "pod-service" (GetUID p)) = (ids, Some err) →
  makeL9Event e (Some u) address h
    = (object_event e u address
         (<["impacted_services" := VStrings []]> (miniPodInfo p)),
       with_log h [Error err]).
Proof.
  intros Hkind Hpod Hlist. unfold makeL9Event, addPodDetails. run_monad.
  rewrite decide_False by (by intros ?). rewrite Hpod.
  unfold getPodServices. run_monad. by rewrite Hlist.
Qed.

(** X20: when the involved object is a pod and the reverse index lists the
    ids [ids], the pod map of the event holds the six fields of the pod
    (uid, name, namespace, start time, pod address, host address) and, under
    ["impacted_services"], the names of the ids that resolve; the event
    carries the fields of the object, and only log lines are added. *)
Theorem makeL9Event_pod_map e u address h p ids :
  ToLower (unstructured.Kind u) = "pod" →
  unstructuredToPod u = (Some p, None) →
  db_List (db h) (makeKey "pod-service" (GetUID p)) = (ids, None) →
  ∃ pod h',
    makeL9Event e (Some u) address h = (object_event e u address pod, h') ∧
    only_logs h h' ∧
    pod !! "impacted_services" = Some (VStrings (omap (resolved_name (db h)) ids)) ∧
    pod !! "uid" = Some (VString (GetUID p)) ∧
    pod !! "name" = Some (VString (GetName p)) ∧
    pod !! "namespace" = Some (VString (GetNamespace p)) ∧
    pod !! "start_time" = Some (VTime (v1.StartTime (v1.Status p))) ∧
    pod !! "ip" = Some (VString (v1.PodIP (v1.Status p))) ∧
    pod !! "host_ip" = Some (VString (v1.HostIP (v1.Status p))) ∧
    size pod = 7%nat.
Proof.
  intros Hkind Hpod Hlist. unfold makeL9Event, addPodDetails. run_monad.
  rewrite decide_False by (by intros ?). rewrite Hpod.
  destruct (getPodServices_spec (GetUID p) h ids Hlist) as (h' & Hgps & Hlog).
  rewrite Hgps. simpl.
  eexists _, h'. split; [reflexivity|]. split; [done|].
  unfold miniPodInfo. split_and!; by simplify_map_eq.
Qed.

(** X21: [unstructuredToPod] returns no pod exactly when the encoding of the
    object fails, and then returns that error; a pod it returns has its kind
    and API version blanked, whatever the decoder left there, and comes with
    the decoder's error, if any. *)
Theorem unstructuredToPod_result u :
  match unstructuredToPod u with
  | (None, err) => is_Some err ∧ (runtime_Encode u).2 = err
  | (Some p, err) =>
      (runtime_Encode u).2 = None ∧
      v1.Pod_Kind p = "" ∧ v1.Pod_APIVersion p = "" ∧
      ∃ p0, (runtime_DecodeInto (runtime_Encode u).1 p0).2 = err
  end.
Proof.
  unfold unstructuredToPod.
  destruct (runtime_Encode u) as [json [e|]]; simpl; [eauto|].
  destruct (runtime_DecodeInto json _) as [p err] eqn:Hdec.
  split_and!; try done. eexists. by rewrite Hdec.
Qed.

(** X22: the tag a callback passes to [onService] reaches nothing but the
    message and reason of the pushed event: with two tags [onService]
    returns the same error, leaves the same store, cluster and log, and
    pushes as many events. *)
Theorem onService_eventType s eventType1 eventType2 h :
  let r1 := onService kc s eventType1 h in
  let r2 := onService kc s eventType2 h in
  r1.1 = r2.1 ∧ db r1.2 = db r2.2 ∧ client r1.2 = client r2.2 ∧
  logged r1.2 = logged r2.2 ∧ length (ch r1.2) = length (ch r2.2).
Proof.
  assert (∀ suid,
    let r1 := onService_process kc s eventType1 suid h in
    let r2 := onService_process kc s eventType2 suid h in
    r1.1 = r2.1 ∧ db r1.2 = db r2.2 ∧ client r1.2 = client r2.2 ∧
    logged r1.2 = logged r2.2 ∧ length (ch r1.2) = length (ch r2.2)) as Hproc.
  { intros suid. unfold onService_process. run_monad.
    destruct (db_Set (db h) "service" suid (AService s)) as [d1 [e|]]; [done|].
    simpl. destruct (getPods kc (client h) d1 s) as [[k d2] [pods [e|]]]; [done|].
    simpl. destruct (db_Set d2 "service-pods" suid (APods pods)) as [d3 [e|]];
      [done|].
    rewrite onService_loop_spec; simpl.
    destruct (index_writes suid pods d3) as [d4 [e|]]; [done|]; simpl.
    unfold makeL9ServiceEvent; run_monad; simpl.
    by rewrite !length_app. }
  unfold onService. case_bool_decide; [done|].
  destruct (decide (GetName s = "kubernetes")); [done|].
  run_monad. destruct (db_Get (db h) eventCacheTable (GetUID s)) as [r [x|]]; [done|].
  destruct (Exists r); [|apply Hproc].
  destruct (Unmarshal _ r) as [ex [x|]]; [done|].
  case_bool_decide; [done | apply Hproc].
Qed.

End MoreHandlerFacts.

(** * Further properties of the handler over the cache *)

Section MoreStoreFacts.

Context `{!Codec}.
Context {K : Type} (kc : kubernetesClient K Cache).

Implicit Types h : Handler K Cache.

(** [onEvent] writes nothing itself: what the client leaves alone is left
    alone. *)
Lemma onEvent_agree (P : string → Prop) e h :
  client_keeps P kc → agree_on P (db h) (db (onEvent kc e h).2).
Proof.
  intros Hkeeps.
  destruct (decide (watched_event e)) as [Hw|Hw];
    [|rewrite onEvent_ignored by done; apply agree_on_refl].
  destruct (db_Get (db h) eventCacheTable (GetUID e)) as [r [x|]] eqn:Hget;
    [erewrite onEvent_lookup_error by done; apply agree_on_refl|].
  destruct (Exists r) eqn:Hex;
    [erewrite onEvent_present by done; apply agree_on_refl|].
  destruct (getObject kc (client h) (db h) (v1.InvolvedObject e))
    as [[k1 d1] [obj err1]] eqn:Hobj.
  destruct (getNodeAddress kc k1 d1 (v1.Host (v1.Source e)))
    as [[k2 d2] [addr err2]] eqn:Haddr.
  rewrite (onEvent_pass kc _ _ _ _ _ _ _ _ _ _ _ Hw Hget Hex Hobj Haddr).
  pose proof (makeL9Event_spec (Cachier0 := Cache_Cachier) e obj addr
    {| client := k2; ch := ch h; db := d2;
       logged := logged h ++ lines err1 ++ lines err2 |}) as (_ & _ & Hlog).
  destruct (makeL9Event _ _ _ _) as [ev h3]; simpl in *.
  destruct Hlog as (_ & _ & -> & _). simpl.
  eapply agree_on_trans.
  - destruct (Hkeeps (client h) (db h)) as (Hg & _ & _).
    specialize (Hg (v1.InvolvedObject e)). rewrite Hobj in Hg. exact Hg.
  - destruct (Hkeeps k1 d1) as (_ & Hg & _).
    specialize (Hg (v1.Host (v1.Source e))). rewrite Haddr in Hg. exact Hg.
Qed.

Lemma deliver_db n h :
  db (deliver kc n h) =
    match object_of n with
    | EventObj e => db (onEvent kc e h).2
    | ServiceObj s => db (onService kc s (eventType_of n) h).2
    | OtherObj => db h
    end.
Proof.
  destruct n as [[e|s|]|old [e|s|]|[e|s|]]; simpl;
    unfold OnAdd, OnUpdate, OnDelete; run_monad; try done;
    first [ by destruct (onEvent kc e h) as [[x|] h']
          | by destruct (onService kc s _ h) as [[x|] h'] ].
Qed.

Lemma run_agree (P : string → Prop) ns h :
  client_keeps P kc →
  (∀ s eventType h0, agree_on P (db h0) (db (onService kc s eventType h0).2)) →
  agree_on P (db h) (db (run kc ns h)).
Proof.
  intros Hkeeps Hsvc. revert h. induction ns as [|n ns IH]; intros h.
  - apply agree_on_refl.
  - unfold run; simpl. fold (run kc ns (deliver kc n h)).
    eapply agree_on_trans; [|apply IH].
    rewrite deliver_db. destruct (object_of n) as [e|s|].
    + by apply onEvent_agree.
    + apply Hsvc.
    + apply agree_on_refl.
Qed.

(** X23: the handler never writes the events table: over any run of
    notifications, with a client that leaves that table alone, the lookup of
    any id in the events table returns what it returned before the run. *)
Theorem events_table_never_written ns h uid :
  client_keeps (λ key, ∃ uid, key = makeKey "events" uid) kc →
  Cache_Lookup (db (run kc ns h)) "events" uid = Cache_Lookup (db h) "events" uid.
Proof.
  intros Hkeeps. apply Cache_Lookup_agree.
  eapply (agree_on_weaken (λ key, ∃ uid, key = makeKey "events" uid));
    [intros key ->; eauto|].
  apply run_agree; [done|].
  intros s eventType h0. apply onService_agree; [done|]. by intros key Hkey.
Qed.

Lemma index_writes_keep_entry suid pods c key :
  stored c key (json_Marshal (ABool true)).1 →
  stored (index_writes suid pods c).1 key (json_Marshal (ABool true)).1.
Proof.
  revert c. induction pods as [|p rest IH]; intros c Hst; simpl; [done|].
  destruct (Cache_Set json_Marshal c (makeKey "pod-service" (GetUID p)) suid
              (ABool true)) as [c1 [e|]] eqn:Hset; simpl.
  - by rewrite (ExpireSet_error_unchanged _ _ _ _ _ _ _ _ Hset).
  - apply IH.
    destruct (decide (key = makeKey (makeKey "pod-service" (GetUID p)) suid))
      as [->|Hne].
    + exact (Cache_Set_stored _ _ _ _ _ Hset).
    + eapply (stored_agree (λ k, k = key)); [done| |exact Hst].
      pose proof (Cache_Set_agree (λ k, k = key) c (makeKey "pod-service" (GetUID p))
                    suid (ABool true)) as Hagree.
      rewrite Hset in Hagree. apply Hagree. congruence.
Qed.

Lemma onService_keeps_entry s eventType h pod suid :
  client_keeps (λ key, key = makeKey (makeKey "pod-service" pod) suid) kc →
  stored (db h) (makeKey (makeKey "pod-service" pod) suid)
    (json_Marshal (ABool true)).1 →
  stored (db (onService kc s eventType h).2)
    (makeKey (makeKey "pod-service" pod) suid) (json_Marshal (ABool true)).1.
Proof.
  intros Hkeeps Hst.
  set (pkey := makeKey (makeKey "pod-service" pod) suid) in *.
  set (bt := (json_Marshal (ABool true)).1) in *.
  assert (∀ uid, makeKey "service" uid ≠ pkey) as Hs
    by (intros uid; unfold pkey, makeKey, String.app; simpl; congruence).
  assert (∀ uid, makeKey "service-pods" uid ≠ pkey) as Hsp
    by (intros uid; unfold pkey, makeKey, String.app; simpl; congruence).
  assert (stored (db (onService_process kc s eventType (GetUID s) h).2) pkey bt)
    as Hproc.
  { unfold onService_process. run_monad. simpl.
    pose proof (Cache_Set_agree (λ k, k = pkey) (db h) "service" (GetUID s)
                  (AService s)) as Ha1.
    destruct (Cache_Set json_Marshal (db h) "service" (GetUID s) (AService s))
      as [c1 [x|]]; simpl in *.
    { eapply (stored_agree (λ k, k = pkey)); [done| |exact Hst]. apply Ha1, Hs. }
    assert (stored c1 pkey bt) as H1.
    { eapply (stored_agree (λ k, k = pkey)); [done| |exact Hst]. apply Ha1, Hs. }
    destruct (Hkeeps (client h) c1) as (_ & _ & Hg). specialize (Hg s).
    destruct (getPods kc (client h) c1 s) as [[k c2] [pods err]]; simpl in *.
    assert (stored c2 pkey bt) as H2
      by (eapply (stored_agree (λ k, k = pkey)); [done|exact Hg|exact H1]).
    destruct err as [x|]; [exact H2|]; simpl.
    pose proof (Cache_Set_agree (λ k, k = pkey) c2 "service-pods" (GetUID s)
                  (APods pods)) as Ha3.
    assert (stored (Cache_Set json_Marshal c2 "service-pods" (GetUID s)
                      (APods pods)).1 pkey bt) as H3.
    { eapply (stored_agree (λ k, k = pkey)); [done| |exact H2]. apply Ha3, Hsp. }
    destruct (Cache_Set json_Marshal c2 "service-pods" (GetUID s) (APods pods))
      as [c3 [x|]]; simpl in *; [exact H3|].
    rewrite (@onService_loop_spec _ _ Cache_Cachier); simpl.
    pose proof (index_writes_keep_entry (GetUID s) pods c3 pkey H3) as H4.
    destruct (index_writes (GetUID s) pods c3) as [c4 [x|]]; simpl in *; [exact H4|].
    unfold makeL9ServiceEvent; run_monad; simpl. exact H4. }
  unfold onService. case_bool_decide; [done|].
  destruct (decide (GetName s = "kubernetes")); [done|].
  run_monad; simpl.
  destruct (Cache_Lookup (db h) eventCacheTable (GetUID s)) as [r [x|]]; [done|].
  destruct (Exists r); [|done].
  destruct (Unmarshal _ r) as [ex [x|]]; [done|].
  case_bool_decide; done.
Qed.

(** X24: the reverse index is never pruned: an entry that records a service
    for a pod stays in the store, with its value, over any run of
    notifications, also when a later change of the service no longer selects
    the pod (with a client that leaves the entry alone). *)
Theorem reverse_index_never_pruned ns h pod suid :
  client_keeps (λ key, key = makeKey (makeKey "pod-service" pod) suid) kc →
  stored (db h) (makeKey (makeKey "pod-service" pod) suid)
    (json_Marshal (ABool true)).1 →
  stored (db (run kc ns h)) (makeKey (makeKey "pod-service" pod) suid)
    (json_Marshal (ABool true)).1.
Proof.
  intros Hkeeps. revert h. induction ns as [|n ns IH]; intros h Hst; [done|].
  unfold run; simpl. fold (run kc ns (deliver kc n h)). apply IH.
  rewrite deliver_db. destruct (object_of n) as [e|s|]; [| |done].
  - eapply (stored_agree (λ key, key = makeKey (makeKey "pod-service" pod) suid));
      [done| |exact Hst].
    by apply onEvent_agree.
  - by apply onService_keeps_entry.
Qed.

(** X25: [onService] does not undo what it wrote: when the service record
    is written and the resolution of the pods then fails, [onService]
    returns that error and pushes and logs nothing, and the service record
    stays in the store (with a client that leaves it alone). *)
Theorem onService_pods_error_keeps_record s eventType h r c1 k c2 pods err :
  watched_service s →
  db_Get (db h) eventCacheTable (GetUID s) = (r, None) →
  Exists r = false →
  Cache_Set json_Marshal (db h) "service" (GetUID s) (AService s) = (c1, None) →
  getPods kc (client h) c1 s = (k, c2, (pods, Some err)) →
  agree_on (λ key, key = makeKey "service" (GetUID s)) c1 c2 →
  onService kc s eventType h
    = (Some err, {| client := k; ch := ch h; db := c2; logged := logged h |}) ∧
  Cache_Lookup c2 "service" (GetUID s)
    = ({| payload := Some (json_Marshal (AService s)).1 |}, None).
Proof.
  intros Hw Hget Hex Hset Hgp Hagree. split.
  - rewrite (@onService_gate _ _ Cache_Cachier _ kc s eventType h r Hw Hget)
      by (by rewrite Hex).
    rewrite decide_False by (intros [? _]; congruence).
    unfold onService_process. run_monad. simpl. rewrite Hset. simpl.
    by rewrite Hgp.
  - apply Cache_Lookup_stored.
    eapply (stored_agree (λ key, key = makeKey "service" (GetUID s)));
      [done | exact Hagree|].
    exact (Cache_Set_stored _ _ _ _ _ Hset).
Qed.

(** X26: the record [onService] looks up is keyed by the bare uid of the
    service, the event it pushes is identified by uid and resource version:
    an entry written to the events table under the identity of a service
    event is not the one the lookup reads, which returns what it returned
    before. *)
Theorem service_identity_is_not_the_lookup_key c (s : v1.Service) (x : any) :
  Cache_Lookup
    (Cache_Set json_Marshal c "events"
       (GetUID s +:+ "-" +:+ GetResourceVersion s) x).1
    "events" (GetUID s)
  = Cache_Lookup c "events" (GetUID s).
Proof.
  apply Cache_Lookup_agree, Cache_Set_agree. intros Heq.
  apply (inj (String.app "events")), (inj (String.app "-")) in Heq.
  apply (f_equal String.length) in Heq.
  rewrite string_length_app in Heq.
  change (String.length ("-" +:+ GetResourceVersion s))
    with (S (String.length (GetResourceVersion s))) in Heq. lia.
Qed.

End MoreStoreFacts.

(** * The further properties on sample notifications *)

Section MoreSamples.

#[local] Existing Instance Sample.codec.

Lemma makeKey_uid_inj_witness : GetUID Sample.e1 = "E1".
Proof. apply (makeKey_uid_inj "events" (GetUID Sample.e1) "E1"). reflexivity. Defined.

Lemma ExpireSet_succeeds_iff_witness :
  (Cache_ExpireSet Sample.strict Sample.store "events" "E1" (Some "payload") 0).2 = None ↔
  (Sample.strict (Some "payload")).2 = None ∧
  buntdb.closed (Cache_db Sample.store) = false ∧ "events" ≠ "".
Proof.
  apply (ExpireSet_succeeds_iff Sample.strict Sample.store "events" "E1"
           (Some "payload") 0).
  apply (well_indexed_new 0).
Defined.

Lemma ExpireSet_failure_witness :
  Sample.store_closed = Sample.store_closed ∧
  ((Sample.strict (Some "payload")).2 = Some ErrDatabaseClosed ∨
   ((Sample.strict (Some "payload")).2 = None ∧
    (buntdb.closed (Cache_db Sample.store_closed) = true ∧
       ErrDatabaseClosed = ErrDatabaseClosed ∨
     buntdb.closed (Cache_db Sample.store_closed) = false ∧
       "events" = "" ∧ ErrDatabaseClosed = ErrIndexExists))).
Proof.
  apply (ExpireSet_failure Sample.strict Sample.store_closed "events" "E1"
           (Some "payload") 0).
  reflexivity.
Defined.

Lemma ExpireSet_last_write_wins_witness :
  Cache_ExpireSet Sample.strict Sample.store "events" "E1" (Some "second") 0
    = ((Cache_ExpireSet Sample.strict
          (Cache_ExpireSet Sample.strict Sample.store "events" "E1" (Some "first") 60).1
          "events" "E1" (Some "second") 0).1, None).
Proof.
  apply (ExpireSet_last_write_wins Sample.strict Sample.store "events" "E1"
           (Some "first") 60
           (Cache_ExpireSet Sample.strict Sample.store "events" "E1" (Some "first") 60).1
           (Some "second") 0);
    vm_compute; reflexivity.
Defined.

Lemma ExpireSet_other_key_Get_witness :
  Cache_Get Sample.raw true
    (Cache_ExpireSet Sample.strict Sample.store_E1 "service" "U1" (Some "web") 0).1
    "events" "E1" ""
  = Cache_Get Sample.raw true Sample.store_E1 "events" "E1" "".
Proof.
  apply (ExpireSet_other_key_Get Sample.strict Sample.raw true Sample.store_E1
           "service" "U1" (Some "web") 0 "events" "E1" "").
  vm_compute. discriminate.
Defined.

Lemma ExpireSet_commute_witness :
  (Cache_ExpireSet Sample.strict
     (Cache_ExpireSet Sample.strict Sample.store "service" "U1" (Some "web") 0).1
     "events" "E1" (Some "seen") 60).1
  = (Cache_ExpireSet Sample.strict
       (Cache_ExpireSet Sample.strict Sample.store "events" "E1" (Some "seen") 60).1
       "service" "U1" (Some "web") 0).1.
Proof.
  apply (ExpireSet_commute Sample.strict Sample.store "service" "U1" (Some "web") 0
           "events" "E1" (Some "seen") 60).
  vm_compute. discriminate.
Defined.

Lemma ExpireSet_ttl_witness :
  buntdb.keys
    (Cache_db (Cache_ExpireSet Sample.strict Sample.store "events" "E1"
                 (Some "seen") 60).1) !! makeKey "events" "E1"
  = Some {| buntdb.val := "seen"; buntdb.exat := Some (0 + 60 * 1000000000) |}.
Proof.
  refine (proj1 (ExpireSet_ttl Sample.strict Sample.raw true Sample.store "events" "E1"
                   (Some "seen") 60 _ "seen" "" _ _ _)).
  - lia.
  - reflexivity.
  - vm_compute. reflexivity.
Defined.

Lemma ExpireSet_ttl_overflow_witness :
  Cache_Get Sample.raw true
    (Cache_ExpireSet Sample.strict Sample.store "events" "E1" (Some "seen")
       9223372037).1 "events" "E1" ""
  = (true, Some ErrNotFound, "").
Proof.
  refine (proj2 (ExpireSet_ttl_overflow Sample.strict Sample.raw true Sample.store
                   "events" "E1" (Some "seen") 9223372037 _ "" _ _)).
  - lia.
  - vm_compute. reflexivity.
Defined.

Lemma ignored_notification_noop_witness :
  deliver Sample.cluster (Added (EventObj Scenario.system_event)) Sample.handler
    = Sample.handler.
Proof.
  apply (ignored_notification_noop Sample.cluster
           (Added (EventObj Scenario.system_event)) Sample.handler).
  intros Hw. apply Hw. compute_done.
Defined.

Lemma lookup_error_logged_witness :
  deliver Sample.cluster (Deleted (EventObj Sample.e1))
    (Sample.handler_on Sample.store_closed)
    = with_log (Sample.handler_on Sample.store_closed) [Error ErrDatabaseClosed].
Proof.
  apply (lookup_error_logged Sample.cluster (Deleted (EventObj Sample.e1))
           (Sample.handler_on Sample.store_closed) {| payload := None |}
           ErrDatabaseClosed).
  - apply watched_e1.
  - reflexivity.
Defined.

Lemma podMap_loop_entry_witness :
  podMap_loop [Sample.pod "web-0" "default" "P1"; Sample.pod "web-1" "default" "P2"] ∅
    !! GetName (Sample.pod "web-1" "default" "P2")
  = Some (pod_entry (Sample.pod "web-1" "default" "P2")).
Proof.
  apply (podMap_loop_entry
           [Sample.pod "web-0" "default" "P1"; Sample.pod "web-1" "default" "P2"]
           (Sample.pod "web-1" "default" "P2")).
  - repeat constructor; compute_done.
  - right. left.
Defined.

Lemma onService_event_witness :
  ∃ ev pods,
    (getPods Sample.cluster (client Sample.handler)
       (db_Set (db Sample.handler) "service" (GetUID (Sample.s1 "5"))
          (AService (Sample.s1 "5"))).1 (Sample.s1 "5")).2 = (pods, None) ∧
    ch Sample.handler_S1 = ch Sample.handler ++ [ev] ∧
    ID ev = GetUID (Sample.s1 "5") +:+ "-" +:+ GetResourceVersion (Sample.s1 "5") ∧
    Timestamp ev = time_Now Sample.cluster (client Sample.handler_S1) ∧
    Component ev = GetName (Sample.s1 "5") ∧ Host ev = "" ∧
    Message ev = "addedService" ∧ Reason ev = "addedService" ∧
    Namespace ev = GetNamespace (Sample.s1 "5") ∧
    ReferenceUID ev = "" ∧ ReferenceNamespace ev = "" ∧ ReferenceName ev = "" ∧
    ReferenceKind ev = "" ∧ ReferenceVersion ev = GetResourceVersion (Sample.s1 "5") ∧
    ObjectUid ev = GetUID (Sample.s1 "5") ∧ Labels ev = GetLabels (Sample.s1 "5") ∧
    Annotations ev = GetAnnotations (Sample.s1 "5") ∧ Address ev = [] ∧
    dom (Pod ev) = list_to_set (GetName <$> pods).
Proof.
  apply (onService_event Sample.cluster (Sample.s1 "5") "addedService"
           Sample.handler Sample.handler_S1).
  - vm_compute. reflexivity.
  - vm_compute. discriminate.
Defined.

Lemma makeL9Event_not_pod_witness :
  makeL9Event Sample.e2 (Some Scenario.node1) ["10.0.0.1"] Sample.handler
    = (object_event Sample.e2 Scenario.node1 ["10.0.0.1"] ∅, Sample.handler).
Proof.
  apply (makeL9Event_not_pod Sample.e2 Scenario.node1 ["10.0.0.1"] Sample.handler).
  vm_compute. discriminate.
Defined.

Lemma makeL9Event_conversion_error_witness :
  @makeL9Event unit Cache Cache_Cachier Scenario.undecodable
    Sample.e1 (Some Scenario.web0) [] Sample.handler
    = (object_event Sample.e1 Scenario.web0 [] ∅,
       with_log Sample.handler [Error (errorString "no kind registered")]).
Proof.
  apply (@makeL9Event_conversion_error unit Cache Cache_Cachier Scenario.undecodable
           Sample.e1 Scenario.web0 [] Sample.handler
           (Some {| v1.Pod_Kind := ""; v1.Pod_APIVersion := "";
                    v1.Pod_ObjectMeta := Sample.meta "" "" "" "";
                    v1.Status := {| v1.StartTime := None; v1.PodIP := "";
                                    v1.HostIP := "" |} |})
           (errorString "no kind registered")).
  - reflexivity.
  - reflexivity.
Defined.

Lemma makeL9Event_list_error_witness :
  makeL9Event Sample.e1 (Some Scenario.web0) []
    (Sample.handler_on Sample.store_closed)
    = (object_event Sample.e1 Scenario.web0 []
         (<["impacted_services" := VStrings []]> (miniPodInfo Scenario.web0_decoded)),
       with_log (Sample.handler_on Sample.store_closed) [Error ErrDatabaseClosed]).
Proof.
  apply (makeL9Event_list_error Sample.e1 Scenario.web0 []
           (Sample.handler_on Sample.store_closed) Scenario.web0_decoded []
           ErrDatabaseClosed).
  - reflexivity.
  - reflexivity.
  - reflexivity.
Defined.

Lemma makeL9Event_pod_map_witness :
  ∃ pod h',
    makeL9Event Sample.e1 (Some Scenario.web0) [] Sample.handler_S1
      = (object_event Sample.e1 Scenario.web0 [] pod, h') ∧
    only_logs Sample.handler_S1 h' ∧
    pod !! "impacted_services"
      = Some (VStrings (omap (resolved_name (db Sample.handler_S1)) ["U1"])) ∧
    pod !! "uid" = Some (VString (GetUID Scenario.web0_decoded)) ∧
    pod !! "name" = Some (VString (GetName Scenario.web0_decoded)) ∧
    pod !! "namespace" = Some (VString (GetNamespace Scenario.web0_decoded)) ∧
    pod !! "start_time" = Some (VTime (v1.StartTime (v1.Status Scenario.web0_decoded))) ∧
    pod !! "ip" = Some (VString (v1.PodIP (v1.Status Scenario.web0_decoded))) ∧
    pod !! "host_ip" = Some (VString (v1.HostIP (v1.Status Scenario.web0_decoded))) ∧
    size pod = 7%nat.
Proof.
  apply (makeL9Event_pod_map Sample.e1 Scenario.web0 [] Sample.handler_S1
           Scenario.web0_decoded ["U1"]).
  - reflexivity.
  - reflexivity.
  - vm_compute. reflexivity.
Defined.

Lemma events_table_never_written_witness :
  Cache_Lookup
    (db (run Sample.cluster
           [Added (ServiceObj (Sample.s1 "5")); Added (EventObj Sample.e1)]
           Sample.handler)) "events" "U1"
  = Cache_Lookup (db Sample.handler) "events" "U1".
Proof.
  apply (events_table_never_written Sample.cluster
           [Added (ServiceObj (Sample.s1 "5")); Added (EventObj Sample.e1)]
           Sample.handler "U1").
  apply client_keeps_sample.
Defined.

Lemma reverse_index_never_pruned_witness :
  stored
    (db (run Sample.cluster [Deleted (ServiceObj (Sample.s1 "6"))] Sample.handler_S1))
    (makeKey (makeKey "pod-service" "P1") "U1") (json_Marshal (ABool true)).1.
Proof.
  apply (reverse_index_never_pruned Sample.cluster
           [Deleted (ServiceObj (Sample.s1 "6"))] Sample.handler_S1 "P1" "U1").
  - apply client_keeps_sample.
  - split; vm_compute; reflexivity.
Defined.

Lemma onService_pods_error_keeps_record_witness :
  onService Scenario.unreachable (Sample.s1 "5") "addedService" Sample.handler
    = (Some (errorString "connection refused"),
       {| client := tt; ch := ch Sample.handler;
          db := (Cache_Set json_Marshal Sample.store "service" "U1"
                   (AService (Sample.s1 "5"))).1;
          logged := logged Sample.handler |}) ∧
  Cache_Lookup
    (Cache_Set json_Marshal Sample.store "service" "U1" (AService (Sample.s1 "5"))).1
    "service" (GetUID (Sample.s1 "5"))
    = ({| payload := Some (json_Marshal (AService (Sample.s1 "5"))).1 |}, None).
Proof.
  apply (onService_pods_error_keeps_record Scenario.unreachable (Sample.s1 "5")
           "addedService" Sample.handler {| payload := None |}
           (Cache_Set json_Marshal Sample.store "service" "U1"
              (AService (Sample.s1 "5"))).1
           tt
           (Cache_Set json_Marshal Sample.store "service" "U1"
              (AService (Sample.s1 "5"))).1
           [] (errorString "connection refused")).
  - unfold watched_service. compute_done.
  - vm_compute. reflexivity.
  - reflexivity.
  - vm_compute. reflexivity.
  - reflexivity.
  - apply agree_on_refl.
Defined.

End MoreSamples.
